(** * toobz: unpacking an EFI zboot image

    A shallow embedding of [unpack.go] (package [toobz]): the magic
    registry ([Datum], [Data]), the comparison of observed bytes with a
    datum ([check.verify]), the header decoder and validator
    ([Unpacker.ReadInfo]) and the writer with its optional decompression
    and architecture sniff ([BootInfo.Write]).

    Conventions.
    - A Go [uint8] is a [Byte.byte]; a [[]uint8] whose capacity does not
      matter is a [list byte]; Go's [int], [int64] and [uint32] are [Z]
      ([int] is taken to be 64 bits wide, so that [int(x)] of a [uint32]
      is [x] itself), with the wrap-around of [uint32] written out.
    - A Go [string] is a [String.string]; every string of the package is
      ASCII, so that ranging over its runes is ranging over its bytes.
    - An [error] is a value of the inductive type [error]; a function
      that can also panic returns an [outcome]. *)

From Stdlib Require Import ZArith NArith List Bool Lia.
From Stdlib.Strings Require Import String Ascii Byte.
From Stdlib Require Import DecimalString DecimalN.
Import ListNotations.

Local Open Scope string_scope.
Local Open Scope list_scope.
Local Open Scope Z_scope.

(** String concatenation, as Go's [+] on strings and the literal parts
    of a format string. *)
Local Infix "+++" := String.append (right associativity, at level 60).

(** ** Errors and outcomes *)

(** The error values that travel through the package.  [errorString] is
    the value of [errors.New] and of [fmt.Errorf] without [%w];
    [ErrIsInvalidContent] is the package's sentinel (compared by identity
    in [errors.Is]); [joinError] is [errors.Join] of two errors; [io_EOF],
    [io_ErrUnexpectedEOF] and [io_ErrShortBuffer] are the sentinels of
    package [io].
    [gzipError] and [sinkError] are error values owned by the gzip reader
    and by the output sink: the package hands them back as they are and
    never builds one itself. *)
Inductive error : Type :=
| errorString (msg : string)
| ErrIsInvalidContent
| joinError (e1 e2 : error)
| io_EOF
| io_ErrUnexpectedEOF
| io_ErrShortBuffer
| gzipError (msg : string)
| sinkError (msg : string).

Inductive outcome (A : Type) : Type :=
| Ok (a : A)
| Err (e : error)
| Panic (msg : string).
Arguments Ok {A} a.
Arguments Err {A} e.
Arguments Panic {A} msg.

Definition error_eq_dec (a b : error) : {a = b} + {a <> b}.
Proof. decide equality; apply string_dec. Defined.

(** [errors.Is(err, target)] for a sentinel target: identity, or, for a
    joined error, [Is] of one of the joined errors. *)
Fixpoint errors_Is (err target : error) : bool :=
  if error_eq_dec err target then true
  else match err with
       | joinError e1 e2 => errors_Is e1 target || errors_Is e2 target
       | _ => false
       end.

(** ** Bytes, integers and slices *)

Definition byte_val (b : byte) : Z := Z.of_N (Byte.to_N b).

(** [uint8(x)]: the low eight bits. *)
Definition uint8 (x : Z) : byte :=
  match Byte.of_N (Z.to_N (x mod 256)) with
  | Some b => b
  | None => x00
  end.

Definition len {A} (l : list A) : Z := Z.of_nat (List.length l).

Definition uint32_modulus : Z := 2 ^ 32.

(** [a + b] on [uint32]. *)
Definition uint32_add (a b : Z) : Z := (a + b) mod uint32_modulus.

(** [binary.LittleEndian.Uint32]. *)
Definition LittleEndian_Uint32 (bs : list byte) : Z :=
  match bs with
  | [b0; b1; b2; b3] =>
      Z.lor (byte_val b0)
        (Z.lor (Z.shiftl (byte_val b1) 8)
           (Z.lor (Z.shiftl (byte_val b2) 16) (Z.shiftl (byte_val b3) 24)))
  | _ => 0
  end.

(** [s[lo:hi]] on a list, for [0 <= lo <= hi <= len s]. *)
Definition bytes_slice (s : list byte) (lo hi : Z) : list byte :=
  firstn (Z.to_nat (hi - lo)) (skipn (Z.to_nat lo) s).

(** A Go slice whose capacity matters: [elems] are the [len] visible
    elements, [spare] the elements of the backing array between [len] and
    [cap]. *)
Record slice : Type := mkSlice { elems : list byte; spare : list byte }.

Definition slice_len (s : slice) : Z := len (elems s).
Definition slice_cap (s : slice) : Z := len (elems s) + len (spare s).

(** A slice whose capacity is its length ([make([]byte, n)], a literal). *)
Definition full_slice (l : list byte) : slice := mkSlice l [].

(** The simple slice expression [s[lo:hi]]: it is legal for
    [0 <= lo <= hi <= cap(s)] (the bound is the capacity, not the
    length) and panics otherwise. *)
Definition slice_expr (s : slice) (lo hi : Z) : option slice :=
  if (0 <=? lo) && (lo <=? hi) && (hi <=? slice_cap s) then
    let arr := elems s ++ spare s in
    Some (mkSlice (bytes_slice arr lo hi) (skipn (Z.to_nat hi) arr))
  else None.

(** ** Rendering: [fmt.Sprintf("%v", []uint8)] *)

(** [%v] of a [uint8]: its decimal digits. *)
Definition Sprint_uint8 (b : byte) : string :=
  NilEmpty.string_of_uint (N.to_uint (Byte.to_N b)).

Fixpoint Sprint_elems (l : list byte) : string :=
  match l with
  | [] => ""
  | [b] => Sprint_uint8 b
  | b :: rest => Sprint_uint8 b +++ " " +++ Sprint_elems rest
  end.

(** [%v] of a [[]uint8]: the elements in decimal, separated by one
    space, between brackets. *)
Definition Sprint_bytes (l : list byte) : string :=
  "[" +++ Sprint_elems l +++ "]".

(** [%d] of an [int]. *)
Definition Sprint_int (n : Z) : string :=
  NilEmpty.string_of_int (Z.to_int n).

(** ** The magic registry *)

Record Datum : Type := mkDatum {
  payload : string;
  padding : Z;
  addByte : byte;
  raw : list byte
}.

Definition LinuxMagic : Datum := mkDatum "Linux" 0 x00 [xcd; x23; x82; x81].
Definition ARM : Datum := mkDatum "ARM" 0 x64 [].
Definition RISC : Datum := mkDatum "RSC" 0 x05 [].
Definition Gzip : Datum := mkDatum "gzip" 32 x00 [].
Definition MSDOSMagic : Datum := mkDatum "MZ" 0 x00 [].
Definition ZImg : Datum := mkDatum "zimg" 0 x00 [].

Definition ARM64MagicOffset : Z := 56.

Definition Value (d : Datum) : string := payload d.

(** The first loop of [toUint8Padded]: [uint8(chr)] of every rune. *)
Fixpoint string_uint8s (s : string) : list byte :=
  match s with
  | EmptyString => []
  | String c rest => uint8 (Z.of_N (N_of_ascii c)) :: string_uint8s rest
  end.

(** [toUint8Padded]: the second loop appends a zero while [len(r) < to]. *)
Definition toUint8Padded (s : string) (to : Z) : list byte :=
  let r := string_uint8s s in
  r ++ repeat x00 (Z.to_nat (to - len r)).

Definition Data (d : Datum) : list byte :=
  if 0 <? len (raw d) then raw d
  else
    let b := toUint8Padded (payload d) (padding d) in
    if 0 <? byte_val (addByte d) then b ++ [addByte d] else b.

(** ** check.verify *)

Record check : Type := mkCheck { left : list byte; right : Datum }.

Definition verify (c : check) : option error :=
  let l := Sprint_bytes (left c) in
  let r := Sprint_bytes (Data (right c)) in
  if string_dec l r then None
  else Some (joinError ErrIsInvalidContent
               (errorString (Value (right c) +++ " invalid data: " +++ l +++ " != " +++ r))).

(** ** bytes.Reader, io.ReadFull, binary.Read *)

(** A [*bytes.Reader]: the underlying slice and the current reading
    index. *)
Record Reader : Type := mkReader { s : list byte; i : Z }.

Definition NewReader (b : list byte) : Reader := mkReader b 0.

(** [Reader.Len]: the number of bytes of the unread portion. *)
Definition Reader_Len (r : Reader) : Z :=
  if i r >=? len (s r) then 0 else len (s r) - i r.

(** [make([]byte, n)]. *)
Definition make_bytes (n : Z) : list byte := repeat x00 (Z.to_nat n).

(** [copy(dst, src)]: the new contents of [dst] and the number of
    elements copied. *)
Definition copy (dst src : list byte) : list byte * Z :=
  let n := Z.min (len dst) (len src) in
  (firstn (Z.to_nat n) src ++ skipn (Z.to_nat n) dst, n).

(** [Reader.ReadAt(b, off)]: the new contents of [b], [n] and [err]; the
    reader is left as it is. *)
Definition Reader_ReadAt (r : Reader) (b : list byte) (off : Z)
  : list byte * Z * option error :=
  if off <? 0 then
    (b, 0, Some (errorString "bytes.Reader.ReadAt: negative offset"))
  else if off >=? len (s r) then (b, 0, Some io_EOF)
  else
    let '(b', n) := copy b (skipn (Z.to_nat off) (s r)) in
    (b', n, if n <? len b then Some io_EOF else None).

(** [Reader.Read(b)]: the reader after the call, the new contents of
    [b], [n] and [err]. *)
Definition Reader_Read (r : Reader) (b : list byte)
  : Reader * list byte * Z * option error :=
  if i r >=? len (s r) then (r, b, 0, Some io_EOF)
  else
    let '(b', n) := copy b (skipn (Z.to_nat (i r)) (s r)) in
    (mkReader (s r) (i r + n), b', n, None).

Definition is_EOF (err : option error) : bool :=
  match err with
  | Some io_EOF => true
  | _ => false
  end.

(** The loop of [io.ReadAtLeast], [for n < min && err == nil]: every
    turn reads into [buf[n:]].  [turns] bounds the number of turns. *)
Fixpoint ReadAtLeast_loop (turns : nat) (r : Reader) (buf : list byte)
         (min n : Z) (err : option error)
  : Reader * list byte * Z * option error :=
  match turns with
  | O => (r, buf, n, err)
  | S turns' =>
      match err with
      | Some _ => (r, buf, n, err)
      | None =>
          if n <? min then
            let '(r', rest, nn, err') := Reader_Read r (skipn (Z.to_nat n) buf) in
            ReadAtLeast_loop turns' r' (firstn (Z.to_nat n) buf ++ rest)
                             min (n + nn) err'
          else (r, buf, n, err)
      end
  end.

(** [io.ReadAtLeast(r, buf, min)] on a [bytes.Reader].  A turn of the
    loop that reports no error has read at least one byte, so that
    [min + 1] turns are enough. *)
Definition io_ReadAtLeast (r : Reader) (buf : list byte) (min : Z)
  : Reader * list byte * Z * option error :=
  if len buf <? min then (r, buf, 0, Some io_ErrShortBuffer)
  else
    let '(r', buf', n, err) :=
      ReadAtLeast_loop (S (Z.to_nat min)) r buf min 0 None in
    (r', buf', n,
     if n >=? min then None
     else if (0 <? n) && is_EOF err then Some io_ErrUnexpectedEOF
     else err).

(** [io.ReadFull(r, buf)]. *)
Definition io_ReadFull (r : Reader) (buf : list byte)
  : Reader * list byte * Z * option error :=
  io_ReadAtLeast r buf (len buf).

(** ** The header *)

Record Header : Type := mkHeader {
  Header_MSDOSMagic : list byte;       (* [2]uint8 *)
  Header_Reserved0 : list byte;        (* [2]uint8 *)
  Header_ZImg : list byte;             (* [4]uint8 *)
  Header_PayloadOffset : Z;            (* uint32 *)
  Header_PayloadSize : Z;              (* uint32 *)
  Header_Reserved1 : list byte;        (* [8]uint8 *)
  Header_CompressionType : list byte;  (* [32]uint8 *)
  Header_LinuxMagic : list byte;       (* [4]uint8 *)
  Header_PEHeaderOffset : Z            (* uint32 *)
}.

(** [binary.Size(Header{})]: the fields in declaration order, without
    padding. *)
Definition Header_size : Z := 2 + 2 + 4 + 4 + 4 + 8 + 32 + 4 + 4.

(** The decoder of [encoding/binary] walks the struct in declaration
    order with a cursor into the bytes read. *)
Definition decoder_bytes (n : nat) (bs : list byte) : list byte * list byte :=
  (firstn n bs, skipn n bs).

Definition decoder_uint32 (bs : list byte) : Z * list byte :=
  (LittleEndian_Uint32 (firstn 4 bs), skipn 4 bs).

Definition decode_Header (bs : list byte) : Header :=
  let '(dos, bs) := decoder_bytes 2 bs in
  let '(res0, bs) := decoder_bytes 2 bs in
  let '(zimg, bs) := decoder_bytes 4 bs in
  let '(off, bs) := decoder_uint32 bs in
  let '(size, bs) := decoder_uint32 bs in
  let '(res1, bs) := decoder_bytes 8 bs in
  let '(ctype, bs) := decoder_bytes 32 bs in
  let '(linux, bs) := decoder_bytes 4 bs in
  let '(pe, _) := decoder_uint32 bs in
  mkHeader dos res0 zimg off size res1 ctype linux pe.

(** [binary.Read(r, binary.LittleEndian, &hdr)]: a buffer of the size
    of the header is filled by [io.ReadFull] and decoded. *)
Definition binary_Read (r : Reader) : Reader * outcome Header :=
  let '(r', bs, _, err) := io_ReadFull r (make_bytes Header_size) in
  match err with
  | Some e => (r', Err e)
  | None => (r', Ok (decode_Header bs))
  end.

(** ** Unpacker.ReadInfo *)

Record Unpacker : Type := mkUnpacker { Decompress : bool; ParseBody : bool }.

Record BootInfo : Type := mkBootInfo {
  header : Header;
  body : list byte;
  unpacker : Unpacker
}.

(** The loop over the checks: the first failing [verify] ends it. *)
Fixpoint verify_checks (cs : list check) : option error :=
  match cs with
  | [] => None
  | c :: rest =>
      match verify c with
      | Some err => Some err
      | None => verify_checks rest
      end
  end.

(** Lines 131 to 158 of [ReadInfo]: the checks and the extraction, once
    the header is read; [r] is the reader as [binary.Read] left it. *)
Definition ReadInfo_after_header (u : Unpacker) (r : Reader) (hdr : Header)
  : outcome BootInfo :=
  match verify_checks
          [ mkCheck (Header_MSDOSMagic hdr) MSDOSMagic;
            mkCheck (Header_LinuxMagic hdr) LinuxMagic;
            mkCheck (Header_ZImg hdr) ZImg ] with
  | Some err => Err err
  | None =>
      if (Header_PayloadOffset hdr =? 0) || (Header_PayloadSize hdr =? 0)
      then Err (errorString "payload size/offset is zero")
      else
        let size := Reader_Len r in
        if uint32_add (Header_PayloadOffset hdr) (Header_PayloadSize hdr) >? size
        then Err (errorString "invalid offset/payload, beyond size")
        else if ParseBody u then
          let sub := make_bytes (Header_PayloadSize hdr) in
          let '(sub, n, err) := Reader_ReadAt r sub (Header_PayloadOffset hdr) in
          match err with
          | Some e => Err e
          | None =>
              if n =? 0 then Err (errorString "invalid seek, zero")
              else Ok (mkBootInfo hdr sub u)
          end
        else Ok (mkBootInfo hdr [] u)
  end.

(** [ReadInfo]: [None] is the nil reader.  The result comes with the
    reader as the call leaves it. *)
Definition ReadInfo (u : Unpacker) (r : option Reader)
  : option Reader * outcome BootInfo :=
  match r with
  | None => (None, Err (errorString "reader is nil"))
  | Some r0 =>
      match binary_Read r0 with
      | (r, Err e) => (Some r, Err e)
      | (r, Panic m) => (Some r, Panic m)
      | (r, Ok hdr) => (Some r, ReadInfo_after_header u r hdr)
      end
  end.

(** The call of the command line: [ReadInfo(bytes.NewReader(b))]. *)
Definition ReadInfo_bytes (u : Unpacker) (b : list byte) : outcome BootInfo :=
  snd (ReadInfo u (Some (NewReader b))).

Definition Body (info : BootInfo) : list byte := body info.

(** ** Collaborators of [Write]: the gzip reader and the output sink *)

(** The gzip reader of [compress/gzip] read to its end by [io.ReadAll]:
    [gzip_NewReader] parses the gzip header of the input, [io_ReadAll]
    hands back the inflated bytes as a slice (with whatever capacity the
    growth of its buffer left) and the error met, if any.  An error of
    the library is known by its message. *)
Class GzipLib : Type := {
  gzip_Reader : Type;
  gzip_NewReader : list byte -> gzip_Reader + string;
  io_ReadAll : gzip_Reader -> slice * option string
}.

(** An [io.Writer]: [Write(p)] changes the sink and returns [n] and
    [err]; an error of the sink is known by its message. *)
Class Writer (W : Type) : Type := {
  io_Write : W -> list byte -> W * Z * option string
}.

(** [bytes.Buffer] as an [io.Writer]: it appends and never fails. *)
#[export] Instance bytes_Buffer : Writer (list byte) := {
  io_Write buf p := (buf ++ p, len p, None)
}.

(** A sink that keeps, next to the sink it wraps, the arguments of every
    [Write] call it received, in order. *)
#[export] Instance Recording (W : Type) `{Writer W} : Writer (W * list (list byte)) := {
  io_Write st p :=
    let '(w', n, err) := io_Write (fst st) p in
    ((w', snd st ++ [p]), n, err)
}.

(** ** BootInfo.Write *)

Section Write.
Context {gz : GzipLib} {W : Type} {sink : Writer W}.

Definition decompressGunzip (input : list byte) : slice * option error :=
  match gzip_NewReader input with
  | inr msg => (full_slice [], Some (gzipError msg))
  | inl r =>
      let '(d, err) := io_ReadAll r in
      (d, option_map gzipError err)
  end.

Record decompressor : Type := mkDecompressor {
  bodyType : list byte;
  fxn : list byte -> slice * option error
}.

(** The table the loop of [Write] ranges over. *)
Definition decompressors : list decompressor :=
  [ mkDecompressor (Data Gzip) decompressGunzip ].

(** The loop over the decompressors: the state is [found] and [sub];
    an error of a matching decompressor ends [Write]. *)
Fixpoint decompress_loop (table : list decompressor) (t : string)
         (found : bool) (sub : slice) : (bool * slice) + error :=
  match table with
  | [] => inl (found, sub)
  | v :: rest =>
      if string_dec t (Sprint_bytes (bodyType v)) then
        let '(d, err) := fxn v (elems sub) in
        match err with
        | Some e => inr e
        | None => decompress_loop rest t true d
        end
      else decompress_loop rest t found sub
  end.

(** The loop over the architecture datums: [Ok knownType], or the
    error of a [verify] that is not a content mismatch. *)
Fixpoint sniff_loop (cs : list Datum) (val : list byte) : outcome bool :=
  match cs with
  | [] => Ok false
  | c :: rest =>
      match verify (mkCheck val c) with
      | None => Ok true
      | Some err =>
          if negb (errors_Is err ErrIsInvalidContent) then Err err
          else sniff_loop rest val
      end
  end.

(** Lines 195 to 213 of [Write]: the length guard, the read of the
    four bytes at [ARM64MagicOffset] and the comparison with the
    architecture datums.  [Ok sub] lets [Write] go on. *)
Definition sniff (sub : slice) : outcome slice :=
  let subSize := slice_len sub in
  if subSize <? ARM64MagicOffset then
    Err (errorString ("invalid response payload: " +++ Sprint_int subSize))
  else
    match slice_expr sub ARM64MagicOffset (ARM64MagicOffset + 4) with
    | None => Panic "slice bounds out of range"
    | Some val =>
        match sniff_loop [ARM; RISC] (elems val) with
        | Err e => Err e
        | Panic m => Panic m
        | Ok knownType =>
            if negb knownType then
              Err (errorString ("unknown payload type: " +++ Sprint_bytes (elems val)))
            else Ok sub
        end
    end.

(** Lines 172 to 214 of [Write], the branch of [Decompress]. *)
Definition decompress_and_sniff (hdr : Header) (sub : slice) : outcome slice :=
  let t := Sprint_bytes (Header_CompressionType hdr) in
  match decompress_loop decompressors t false sub with
  | inr e => Err e
  | inl (found, sub) =>
      if negb found then Err (errorString ("unknown compression type: " +++ t))
      else sniff sub
  end.

Definition Write (info : BootInfo) (w : W) : W * outcome unit :=
  if len (body info) =? 0 then (w, Err (errorString "no body"))
  else
    let sub := full_slice (body info) in
    let staged :=
      if Decompress (unpacker info)
      then decompress_and_sniff (header info) sub
      else Ok sub in
    match staged with
    | Err e => (w, Err e)
    | Panic m => (w, Panic m)
    | Ok sub =>
        let '(w', _, err) := io_Write w (elems sub) in
        (w', match err with
             | Some msg => Err (sinkError msg)
             | None => Ok tt
             end)
    end.

End Write.

(** ** The command line: [unpack] *)

(** The values of the flags [-in], [-out] and [-decompress] after
    [flag.Parse]. *)
Record Flags : Type := mkFlags {
  flag_in : string;
  flag_out : string;
  flag_decompress : bool
}.

(** The operating system as [unpack] uses it, on a state [St]:
    [os.ReadFile], [os.OpenFile] with [O_RDWR|O_CREATE|O_TRUNC], and
    [Write] and [Close] of the file it opens.  An error of the operating
    system is known by its message. *)
Class OS (St : Type) : Type := {
  File : Type;
  os_ReadFile : St -> string -> St * (list byte + string);
  os_OpenFile : St -> string -> St * (File + string);
  File_Write : File -> St -> list byte -> St * Z * option string;
  File_Close : File -> St -> St
}.

(** An open file as an [io.Writer]. *)
Definition File_Writer {St : Type} {os : OS St} (f : File) : Writer St := {|
  io_Write st p := File_Write f st p
|}.

(** What [unpack] returns: the error of the package (or none), or an
    error of the operating system. *)
Inductive unpack_result : Type :=
| unpack_returned (o : outcome unit)
| unpack_os_error (msg : string).

(** [unpack] of the command (package [main]); the deferred [Close] runs
    when [Write] has returned, and its error is dropped. *)
Definition unpack {St : Type} {os : OS St} {gz : GzipLib}
           (fl : Flags) (st : St) : St * unpack_result :=
  let unpacker := mkUnpacker (flag_decompress fl) true in
  let input := flag_in fl in
  let output := flag_out fl in
  if (input =? "")%string || (output =? "")%string then
    (st, unpack_returned (Err (errorString "input/output must be defined")))
  else
    match os_ReadFile st input with
    | (st1, inr msg) => (st1, unpack_os_error msg)
    | (st1, inl b) =>
        match snd (ReadInfo unpacker (Some (NewReader b))) with
        | Err e => (st1, unpack_returned (Err e))
        | Panic m => (st1, unpack_returned (Panic m))
        | Ok info =>
            match os_OpenFile st1 output with
            | (st2, inr msg) => (st2, unpack_os_error msg)
            | (st2, inl w) =>
                let '(st3, res) := Write (sink := File_Writer w) info st2 in
                (File_Close w st3, unpack_returned res)
            end
        end
    end.

(** A file system for examples: the files are the entries of a list, by
    name; opening a file for writing empties it (and creates it), a
    write appends to it. *)
Fixpoint mem_lookup (name : string) (fs : list (string * list byte))
  : option (list byte) :=
  match fs with
  | [] => None
  | (n, c) :: rest => if (n =? name)%string then Some c else mem_lookup name rest
  end.

Fixpoint mem_update (name : string) (f : list byte -> list byte)
         (fs : list (string * list byte)) : list (string * list byte) :=
  match fs with
  | [] => [(name, f [])]
  | (n, c) :: rest =>
      if (n =? name)%string then (n, f c) :: rest
      else (n, c) :: mem_update name f rest
  end.

Definition mem_OS : OS (list (string * list byte)) := {|
  File := string;
  os_ReadFile fs name :=
    (fs, match mem_lookup name fs with
         | Some c => inl c
         | None => inr "no such file or directory"
         end);
  os_OpenFile fs name := (mem_update name (fun _ => []) fs, inl name);
  File_Write name fs p := (mem_update name (fun c => c ++ p) fs, len p, None);
  File_Close _ fs := fs
|}.

(** ** Test vectors *)

(** The header of the repository's test data (64 bytes): offset 51528,
    size 11720914, tag gzip. *)
Definition testData : list byte :=
  [ x4d; x5a; x00; x00; x7a; x69; x6d; x67; x48; xc9; x00; x00; xd2; xd8; xb2; x00;
    x00; x00; x00; x00; x00; x00; x00; x00; x67; x7a; x69; x70; x00; x00; x00; x00;
    x00; x00; x00; x00; x00; x00; x00; x00; x00; x00; x00; x00; x00; x00; x00; x00;
    x00; x00; x00; x00; x00; x00; x00; x00; xcd; x23; x82; x81; x40; x00; x00; x00 ].

(** [data[k] = v]. *)
Fixpoint set_byte (k : nat) (v : byte) (l : list byte) : list byte :=
  match l, k with
  | [], _ => []
  | _ :: rest, O => v :: rest
  | x :: rest, S k' => x :: set_byte k' v rest
  end.

(** A header with the given offset and size fields (each given by its
    four little-endian bytes), the rest as in [testData]. *)
Definition header_with (off size : list byte) : list byte :=
  firstn 8 testData ++ off ++ size ++ skipn 16 testData.

(** A gzip library for examples: its streams are stored bytes, and the
    slice it hands back has the 512 bytes of capacity [io.ReadAll]
    starts with (or none, when [tight]). *)
Definition stored_gzip (tight : bool) : GzipLib := {|
  gzip_Reader := list byte;
  gzip_NewReader input := inl input;
  io_ReadAll r :=
    (mkSlice r (if tight then [] else repeat x00 (512 - List.length r)), None)
|}.

(** ** Vocabulary of the statements *)

(** The errors of [ReadInfo] and [Write] under the names the design
    gives them. *)
Definition ContentMismatch (d : Datum) (observed : list byte) : error :=
  joinError ErrIsInvalidContent
    (errorString (Value d +++ " invalid data: " +++ Sprint_bytes observed
                  +++ " != " +++ Sprint_bytes (Data d))).

Definition InvalidPayloadBounds_zero : error :=
  errorString "payload size/offset is zero".

Definition InvalidPayloadBounds_beyond : error :=
  errorString "invalid offset/payload, beyond size".

Definition UnknownCompressionType (tag : list byte) : error :=
  errorString ("unknown compression type: " +++ Sprint_bytes tag).

Definition PayloadTooShort (n : Z) : error :=
  errorString ("invalid response payload: " +++ Sprint_int n).

(** The header as [ReadInfo] decodes it from a buffer. *)
Definition header_of (buf : list byte) : Header :=
  decode_Header (bytes_slice buf 0 Header_size).

(** Characters of a rendering. *)
Definition is_digit (c : ascii) : bool :=
  let n := N_of_ascii c in ((48 <=? n) && (n <=? 57))%N.

Fixpoint digits (d : string) : bool :=
  match d with
  | EmptyString => true
  | String c rest => is_digit c && digits rest
  end.

(** What may follow a number in a rendering: nothing, or a character
    that is not a digit. *)
Definition stops (r : string) : bool :=
  match r with
  | EmptyString => true
  | String c _ => negb (is_digit c)
  end.

(** What follows the first element in the rendering, bracket
    included. *)
Definition after_first (rest : list byte) : string :=
  match rest with
  | [] => "]"
  | _ => " " +++ Sprint_elems rest +++ "]"
  end.

(** The bytes of the layout that no check of [ReadInfo] looks at: the
    two reserved fields (offsets 2 to 3 and 16 to 23) and the PE header
    offset (offsets 60 to 63). *)
Definition unchecked (j : Z) : bool :=
  ((2 <=? j) && (j <? 4)) || ((16 <=? j) && (j <? 24)) || ((60 <=? j) && (j <? 64)).

(** Two buffers of the same length that differ at most in the unchecked
    bytes. *)
Definition same_outside_unchecked (b1 b2 : list byte) : Prop :=
  len b1 = len b2 /\
  forall j, 0 <= j -> unchecked j = false ->
            nth_error b1 (Z.to_nat j) = nth_error b2 (Z.to_nat j).

(** ** Example images *)

(** A well-formed image: the header names the two bytes at offset 64,
    and 64 more bytes follow them. *)
Definition small_image : list byte :=
  header_with [x40; x00; x00; x00] [x02; x00; x00; x00]
  ++ [x0a; x0b] ++ repeat x07 64.

Definition small_info (u : Unpacker) : BootInfo :=
  mkBootInfo (header_of small_image) [x0a; x0b] u.

(** The DOS magic is right, the zimg tag and the Linux magic are both
    wrong (their first byte is cleared). *)
Definition two_bad_magics : list byte :=
  set_byte 56 x00 (set_byte 4 x00 testData).

(** Offset [0xffffffff] and size 2 in a buffer of 65 bytes. *)
Definition wrapping_image : list byte :=
  header_with [xff; xff; xff; xff] [x02; x00; x00; x00] ++ [x01].

(** Offset 64 and size 2 in a buffer of 67 bytes: the payload range ends
    one byte before the end of the buffer. *)
Definition snug_image : list byte :=
  header_with [x40; x00; x00; x00] [x02; x00; x00; x00] ++ [x0a; x0b; x0c].

(** A decoded image whose compression tag is 32 zero bytes. *)
Definition zero_tag_info : BootInfo :=
  mkBootInfo
    (header_of (firstn 24 testData ++ repeat x00 32 ++ skipn 56 testData))
    [x0a; x0b] (mkUnpacker true true).

(** An inflated payload of 57 bytes. *)
Definition short_payload : list byte := repeat x41 57.

(** The payload range (offset 2, size 2) lies over the first reserved
    field. *)
Definition overlapping_image : list byte :=
  header_with [x02; x00; x00; x00] [x02; x00; x00; x00] ++ [x0a; x0b; x0c; x0d].

(** A wrong DOS magic in a header whose offset is zero and whose size is
    all ones. *)
Definition bad_dos_image : list byte :=
  set_byte 0 x01 (header_with [x00; x00; x00; x00] [xff; xff; xff; xff]).

(** An inflated payload of 60 bytes that ends with the bytes of [ARM]. *)
Definition arm_payload : list byte := repeat x00 56 ++ [x41; x52; x4d; x64].

(** A decoded image with the gzip tag, for the gzip library of the
    examples, whose streams are stored bytes. *)
Definition stored_info (payload : list byte) : BootInfo :=
  mkBootInfo (header_of testData) payload (mkUnpacker true true).

(** A gzip library for examples that refuses every input. *)
Definition failing_gzip : GzipLib := {|
  gzip_Reader := list byte;
  gzip_NewReader _ := inr "gzip: invalid header";
  io_ReadAll r := (mkSlice r [], None)
|}.

(** * Properties *)

(** ** The rendering of a byte slice determines the slice *)

Module Render.

Lemma uint8_digits (b : byte) :
  digits (Sprint_uint8 b) = true /\ Sprint_uint8 b <> "".
Proof. destruct b; split; (reflexivity || discriminate). Qed.

Lemma to_N_inj (a b : byte) : Byte.to_N a = Byte.to_N b -> a = b.
Proof.
  intros E. pose proof (Byte.of_to_N a) as Ha.
  rewrite E, Byte.of_to_N in Ha. congruence.
Qed.

Lemma uint8_inj (a b : byte) : Sprint_uint8 a = Sprint_uint8 b -> a = b.
Proof.
  unfold Sprint_uint8. intros E.
  apply to_N_inj, Unsigned.to_uint_inj.
  assert (Some (N.to_uint (Byte.to_N a)) = Some (N.to_uint (Byte.to_N b))) as S.
  { rewrite <- !NilEmpty.usu, E. reflexivity. }
  congruence.
Qed.

Lemma number_split (d1 : string) :
  forall d2 r1 r2,
    digits d1 = true -> digits d2 = true ->
    stops r1 = true -> stops r2 = true ->
    d1 +++ r1 = d2 +++ r2 -> d1 = d2 /\ r1 = r2.
Proof.
  induction d1 as [|c d1 IH]; intros [|c2 d2] r1 r2 D1 D2 S1 S2 E; simpl in *.
  - split; [reflexivity | assumption].
  - subst r1. simpl in S1. apply andb_prop in D2 as [D2 _].
    rewrite D2 in S1. discriminate.
  - subst r2. simpl in S2. apply andb_prop in D1 as [D1 _].
    rewrite D1 in S2. discriminate.
  - injection E as -> E.
    apply andb_prop in D1 as [_ D1]. apply andb_prop in D2 as [_ D2].
    destruct (IH d2 r1 r2 D1 D2 S1 S2 E) as [-> ->]. split; reflexivity.
Qed.

Lemma append_assoc (a b c : string) : (a +++ b) +++ c = a +++ b +++ c.
Proof. induction a as [|x a IH]; simpl; [reflexivity | now rewrite IH]. Qed.

Lemma elems_cons (b : byte) (rest : list byte) :
  Sprint_elems (b :: rest) +++ "]" = Sprint_uint8 b +++ after_first rest.
Proof.
  destruct rest as [|b' rest]; [reflexivity|].
  change (Sprint_elems (b :: b' :: rest))
    with (Sprint_uint8 b +++ " " +++ Sprint_elems (b' :: rest)).
  rewrite append_assoc. reflexivity.
Qed.

Lemma after_first_stops (rest : list byte) : stops (after_first rest) = true.
Proof. destruct rest; reflexivity. Qed.

Lemma closed_elems_inj (l1 : list byte) :
  forall l2, Sprint_elems l1 +++ "]" = Sprint_elems l2 +++ "]" -> l1 = l2.
Proof.
  induction l1 as [|b1 r1 IH]; intros [|b2 r2] E.
  - reflexivity.
  - exfalso. rewrite elems_cons in E.
    destruct (uint8_digits b2) as [D N].
    destruct (Sprint_uint8 b2) as [|c d]; [now apply N|].
    simpl in E. injection E as <- _. discriminate.
  - exfalso. rewrite elems_cons in E.
    destruct (uint8_digits b1) as [D N].
    destruct (Sprint_uint8 b1) as [|c d]; [now apply N|].
    simpl in E. injection E as -> _. discriminate.
  - rewrite !elems_cons in E.
    apply number_split in E;
      try apply uint8_digits; try apply after_first_stops.
    destruct E as [Eb Er]. apply uint8_inj in Eb. subst b2. f_equal.
    destruct r1 as [|x1 r1], r2 as [|x2 r2]; try reflexivity; try discriminate.
    apply IH. simpl after_first in Er. injection Er as Er. exact Er.
Qed.

(** [fmt.Sprintf("%v", a) == fmt.Sprintf("%v", b)] exactly when the
    two slices hold the same bytes. *)
Lemma Sprint_bytes_inj (l1 l2 : list byte) :
  Sprint_bytes l1 = Sprint_bytes l2 <-> l1 = l2.
Proof.
  split; [|now intros ->].
  unfold Sprint_bytes. simpl. intros E. injection E as E.
  now apply closed_elems_inj.
Qed.

End Render.

(** [verify] accepts exactly the observed bytes that equal the bytes of
    the datum, and its error names the datum and shows both. *)
Lemma verify_spec (c : check) :
  verify c =
    if list_eq_dec Byte.byte_eq_dec (left c) (Data (right c)) then None
    else Some (joinError ErrIsInvalidContent
                 (errorString (Value (right c) +++ " invalid data: "
                               +++ Sprint_bytes (left c) +++ " != "
                               +++ Sprint_bytes (Data (right c))))).
Proof.
  unfold verify.
  destruct (string_dec _ _) as [E|E], (list_eq_dec _ _ _) as [L|L];
    try reflexivity.
  - apply Render.Sprint_bytes_inj in E. contradiction.
  - rewrite L in E. contradiction.
Qed.

(** ** The repository's tests, on the model *)

(** [TestDatum]. *)
Example TestDatum :
  Value ARM = "ARM" /\ Sprint_bytes (Data ARM) = "[65 82 77 100]" /\
  Value MSDOSMagic = "MZ" /\ Sprint_bytes (Data MSDOSMagic) = "[77 90]" /\
  Value Gzip = "gzip" /\
  Sprint_bytes (Data Gzip)
    = "[103 122 105 112 0 0 0 0 0 0 0 0 0 0 0 0 0 0 0 0 0 0 0 0 0 0 0 0 0 0 0 0]" /\
  Value LinuxMagic = "Linux" /\ Sprint_bytes (Data LinuxMagic) = "[205 35 130 129]".
Proof. repeat split; reflexivity. Qed.

(** [TestReadInfo], up to the case of the wrong sizing: the nil reader,
    the empty input, a wrong first byte, a zero offset, a zero size, and
    offset and size of all ones. *)
Example TestReadInfo :
  snd (ReadInfo (mkUnpacker false false) None) = Err (errorString "reader is nil") /\
  ReadInfo_bytes (mkUnpacker false false) [] = Err io_EOF /\
  ReadInfo_bytes (mkUnpacker false false) (set_byte 0 x01 testData)
    = Err (joinError ErrIsInvalidContent
             (errorString "MZ invalid data: [1 90] != [77 90]")) /\
  ReadInfo_bytes (mkUnpacker false false)
    (header_with [x00; x00; x00; x00] [xd2; xd8; xb2; x00])
    = Err (errorString "payload size/offset is zero") /\
  ReadInfo_bytes (mkUnpacker false false)
    (header_with [x48; xc9; x00; x00] [x00; x00; x00; x00])
    = Err (errorString "payload size/offset is zero") /\
  ReadInfo_bytes (mkUnpacker false false)
    (header_with [xff; xff; xff; xff] [xff; xff; xff; xff])
    = Err (errorString "invalid offset/payload, beyond size").
Proof. repeat split; vm_compute; reflexivity. Qed.

(** [TestWrite], the empty [BootInfo], and [TestWriteDecompress], the
    tag whose first byte is cleared. *)
Example TestWrite :
  Write (gz := stored_gzip false) (sink := bytes_Buffer)
        (mkBootInfo (decode_Header []) [] (mkUnpacker false false)) []
    = ([], Err (errorString "no body")) /\
  Write (gz := stored_gzip false) (sink := bytes_Buffer)
        (mkBootInfo (header_of (set_byte 24 x00 testData)) [x00]
                    (mkUnpacker true true)) []
    = ([], Err (errorString
                  "unknown compression type: [0 122 105 112 0 0 0 0 0 0 0 0 0 0 0 0 0 0 0 0 0 0 0 0 0 0 0 0 0 0 0 0]")).
Proof. split; vm_compute; reflexivity. Qed.

(** [TestWriteDecompressCheck]: the three inflated payloads of the
    test. *)
Example TestWriteDecompressCheck :
  sniff (full_slice (list_byte_of_string "this is a test string"))
    = Err (errorString "invalid response payload: 21") /\
  sniff (full_slice (list_byte_of_string
           "ARMt1oij12j01j201 aifj109J0(#Ja98hj98JP( *H#(*HQ(!OIJEOSJOSJ:OJI:Q"))
    = Err (errorString "unknown payload type: [74 79 83 74]") /\
  (let sub := full_slice (list_byte_of_string
           "ARMdARMdARMdARMdARMdARMdARMdARMdARMdARMdARMdARMdARMdARMdARMdARMdARMdARMd") in
   sniff sub = Ok sub).
Proof. repeat split; vm_compute; reflexivity. Qed.

(** ** Slices of a buffer *)

Lemma len_nonneg {A} (l : list A) : 0 <= len l.
Proof. unfold len. lia. Qed.

Lemma nth_error_bytes_slice (l : list byte) (lo hi : Z) (k : nat) :
  nth_error (bytes_slice l lo hi) k =
    if Nat.ltb k (Z.to_nat (hi - lo)) then nth_error l (Z.to_nat lo + k) else None.
Proof.
  unfold bytes_slice. rewrite nth_error_firstn, nth_error_skipn. reflexivity.
Qed.

Lemma len_bytes_slice (l : list byte) (lo hi : Z) :
  0 <= lo -> lo <= hi -> hi <= len l -> len (bytes_slice l lo hi) = hi - lo.
Proof.
  unfold bytes_slice, len. intros Hlo Hhi Hlen.
  rewrite length_firstn, length_skipn. lia.
Qed.

(** Two buffers that hold the same bytes between [lo] and [hi] have the
    same slice there. *)
Lemma bytes_slice_ext (l1 l2 : list byte) (lo hi : Z) :
  0 <= lo ->
  (forall j, lo <= j < hi -> nth_error l1 (Z.to_nat j) = nth_error l2 (Z.to_nat j)) ->
  bytes_slice l1 lo hi = bytes_slice l2 lo hi.
Proof.
  intros Hlo H. apply nth_error_ext. intros k.
  rewrite !nth_error_bytes_slice.
  destruct (Nat.ltb_spec k (Z.to_nat (hi - lo))) as [Hk|Hk]; [|reflexivity].
  specialize (H (lo + Z.of_nat k)).
  replace (Z.to_nat (lo + Z.of_nat k)) with (Z.to_nat lo + k)%nat in H by lia.
  apply H. lia.
Qed.

Lemma bytes_slice_prefix (l : list byte) (n lo hi : Z) :
  0 <= lo -> hi <= n ->
  bytes_slice (bytes_slice l 0 n) lo hi = bytes_slice l lo hi.
Proof.
  intros Hlo Hhi. apply bytes_slice_ext; [assumption|].
  intros j Hj. rewrite nth_error_bytes_slice.
  destruct (Nat.ltb_spec (Z.to_nat j) (Z.to_nat (n - 0))) as [Hk|Hk]; [|lia].
  reflexivity.
Qed.

(** The fields of the header are the slices of the layout. *)
Lemma decode_Header_fields (bs : list byte) :
  decode_Header bs =
    mkHeader (bytes_slice bs 0 2) (bytes_slice bs 2 4) (bytes_slice bs 4 8)
             (LittleEndian_Uint32 (bytes_slice bs 8 12))
             (LittleEndian_Uint32 (bytes_slice bs 12 16))
             (bytes_slice bs 16 24) (bytes_slice bs 24 56) (bytes_slice bs 56 60)
             (LittleEndian_Uint32 (bytes_slice bs 60 64)).
Proof.
  unfold decode_Header, decoder_bytes, decoder_uint32, bytes_slice.
  rewrite !skipn_skipn. reflexivity.
Qed.

Lemma header_of_fields (buf : list byte) :
  header_of buf =
    mkHeader (bytes_slice buf 0 2) (bytes_slice buf 2 4) (bytes_slice buf 4 8)
             (LittleEndian_Uint32 (bytes_slice buf 8 12))
             (LittleEndian_Uint32 (bytes_slice buf 12 16))
             (bytes_slice buf 16 24) (bytes_slice buf 24 56) (bytes_slice buf 56 60)
             (LittleEndian_Uint32 (bytes_slice buf 60 64)).
Proof.
  unfold header_of. rewrite decode_Header_fields.
  rewrite !bytes_slice_prefix by (unfold Header_size; lia). reflexivity.
Qed.

Lemma byte_val_nonneg (b : byte) : 0 <= byte_val b.
Proof. unfold byte_val. lia. Qed.

Lemma LittleEndian_Uint32_nonneg (bs : list byte) : 0 <= LittleEndian_Uint32 bs.
Proof.
  unfold LittleEndian_Uint32.
  destruct bs as [|b0 [|b1 [|b2 [|b3 [|? ?]]]]]; try lia.
  repeat (apply Z.lor_nonneg; split);
    try apply Z.shiftl_nonneg; apply byte_val_nonneg.
Qed.

(** ** Reading the header *)

Lemma len_make_bytes (n : Z) : 0 <= n -> len (make_bytes n) = n.
Proof. intros Hn. unfold len, make_bytes. rewrite repeat_length. lia. Qed.

Lemma copy_make_bytes (n : Z) (src : list byte) :
  0 <= n ->
  copy (make_bytes n) src =
    if n <=? len src then (firstn (Z.to_nat n) src, n)
    else (src ++ repeat x00 (Z.to_nat (n - len src)), len src).
Proof.
  intros Hn. unfold copy. rewrite len_make_bytes by assumption.
  pose proof (len_nonneg src) as Hsrc.
  destruct (Z.leb_spec n (len src)) as [Hle|Hgt].
  - rewrite Z.min_l by assumption. f_equal.
    assert (skipn (Z.to_nat n) (make_bytes n) = []) as ->.
    { apply skipn_all2. unfold make_bytes. rewrite repeat_length. lia. }
    apply app_nil_r.
  - rewrite Z.min_r by lia. f_equal. unfold len at 1 2.
    rewrite Nat2Z.id, firstn_all. f_equal.
    unfold make_bytes.
    replace (Z.to_nat n) with (List.length src + Z.to_nat (n - len src))%nat
      by (unfold len in *; lia).
    rewrite repeat_app, skipn_app, repeat_length, Nat.sub_diag.
    rewrite skipn_all2 by (rewrite repeat_length; lia). reflexivity.
Qed.

(** [io.ReadFull] into a fresh buffer of [n] bytes, for a reader at the
    start of its slice: [io.EOF] on the empty slice, the whole slice and
    [io.ErrUnexpectedEOF] when it is shorter than [n], its first [n]
    bytes otherwise. *)
Lemma io_ReadFull_NewReader (buf : list byte) (n : Z) :
  0 < n ->
  io_ReadFull (NewReader buf) (make_bytes n) =
    if len buf =? 0 then (NewReader buf, make_bytes n, 0, Some io_EOF)
    else if len buf <? n then
      (mkReader buf (len buf), buf ++ repeat x00 (Z.to_nat (n - len buf)),
       len buf, Some io_ErrUnexpectedEOF)
    else (mkReader buf n, bytes_slice buf 0 n, n, None).
Proof.
  intros Hn. pose proof (len_nonneg buf) as Hpos.
  unfold io_ReadFull, io_ReadAtLeast, NewReader.
  rewrite len_make_bytes, Z.ltb_irrefl by lia.
  destruct (Z.to_nat n) as [|turns] eqn:Hturns; [lia|].
  cbn [ReadAtLeast_loop].
  destruct (Z.ltb_spec 0 n) as [_|]; [|lia].
  unfold Reader_Read at 1. cbn [s i Z.to_nat skipn firstn app].
  destruct (Z.eqb_spec (len buf) 0) as [E0|E0].
  - rewrite E0. cbn [Z.geb Z.compare]. cbn [ReadAtLeast_loop Z.add].
    destruct (Z.geb_spec 0 n) as [|_]; [lia|]. reflexivity.
  - destruct (Z.geb_spec 0 (len buf)) as [|_]; [lia|].
    rewrite copy_make_bytes by lia.
    destruct (Z.leb_spec n (len buf)) as [Hfull|Hshort].
    + cbv beta iota. rewrite Z.add_0_l.
      destruct (Z.ltb_spec n n) as [|_]; [lia|].
      destruct (Z.geb_spec n n) as [_|]; [|lia].
      destruct (Z.ltb_spec (len buf) n) as [|_]; [lia|].
      unfold bytes_slice. rewrite Z.sub_0_r. reflexivity.
    + cbv beta iota. rewrite !Z.add_0_l.
      destruct (Z.ltb_spec (len buf) n) as [_|]; [|lia].
      unfold Reader_Read. cbn [s i].
      destruct (Z.geb_spec (len buf) (len buf)) as [_|]; [|lia].
      rewrite firstn_skipn, Z.add_0_r.
      assert (forall t,
                 ReadAtLeast_loop t (mkReader buf (len buf))
                   (buf ++ repeat x00 (Z.to_nat (n - len buf))) n (len buf)
                   (Some io_EOF)
                 = (mkReader buf (len buf),
                    buf ++ repeat x00 (Z.to_nat (n - len buf)), len buf,
                    Some io_EOF)) as -> by (intros [|t]; reflexivity).
      destruct (Z.geb_spec (len buf) n) as [|_]; [lia|].
      destruct (Z.ltb_spec 0 (len buf)) as [_|]; [|lia]. reflexivity.
Qed.

Lemma binary_Read_short (buf : list byte) :
  len buf < Header_size ->
  binary_Read (NewReader buf) =
    (mkReader buf (len buf),
     Err (if len buf =? 0 then io_EOF else io_ErrUnexpectedEOF)).
Proof.
  intros Hshort. unfold binary_Read.
  rewrite io_ReadFull_NewReader by reflexivity.
  destruct (Z.eqb_spec (len buf) 0) as [E0|E0].
  - unfold NewReader. rewrite E0. reflexivity.
  - destruct (Z.ltb_spec (len buf) Header_size) as [_|]; [reflexivity|lia].
Qed.

Lemma binary_Read_full (buf : list byte) :
  Header_size <= len buf ->
  binary_Read (NewReader buf) = (mkReader buf Header_size, Ok (header_of buf)).
Proof.
  intros Hfull. unfold binary_Read, header_of.
  rewrite io_ReadFull_NewReader by reflexivity.
  assert (0 < len buf) as Hpos by (unfold Header_size in Hfull; lia).
  destruct (Z.eqb_spec (len buf) 0) as [|_]; [lia|].
  destruct (Z.ltb_spec (len buf) Header_size) as [|_]; [lia|].
  reflexivity.
Qed.

Lemma ReadInfo_bytes_full (u : Unpacker) (buf : list byte) :
  Header_size <= len buf ->
  ReadInfo_bytes u buf =
    ReadInfo_after_header u (mkReader buf Header_size) (header_of buf).
Proof.
  intros Hfull. unfold ReadInfo_bytes, ReadInfo.
  rewrite binary_Read_full by assumption. reflexivity.
Qed.

Lemma Reader_Len_after_header (buf : list byte) :
  Header_size <= len buf ->
  Reader_Len (mkReader buf Header_size) = len buf - Header_size.
Proof.
  intros Hfull. unfold Reader_Len. cbn [s i].
  destruct (Z.geb_spec Header_size (len buf)) as [G|G]; lia.
Qed.

Lemma ReadInfo_truncated_input_aux (u : Unpacker) (buf : list byte) :
  len buf < Header_size ->
  snd (ReadInfo u (Some (NewReader buf))) =
    Err (if len buf =? 0 then io_EOF else io_ErrUnexpectedEOF).
Proof.
  intros Hshort. unfold ReadInfo.
  rewrite binary_Read_short by assumption. reflexivity.
Qed.

(** [C5] A buffer shorter than the header (64 bytes) is refused with the
    error of the truncated read: [io.EOF] for the empty buffer,
    [io.ErrUnexpectedEOF] otherwise.  [ReadInfo] neither panics nor
    produces a [BootInfo], and the reader ends at the end of the
    buffer without having been read past it. *)
Theorem ReadInfo_truncated_input (u : Unpacker) (buf : list byte) :
  len buf < Header_size ->
  ReadInfo u (Some (NewReader buf)) =
    (Some (mkReader buf (len buf)),
     Err (if len buf =? 0 then io_EOF else io_ErrUnexpectedEOF)).
Proof.
  intros Hshort. unfold ReadInfo.
  rewrite binary_Read_short by assumption. reflexivity.
Qed.

Lemma ReadInfo_truncated_input_witness :
  ReadInfo (mkUnpacker false true) (Some (NewReader (firstn 10 testData))) =
    (Some (mkReader (firstn 10 testData) 10), Err io_ErrUnexpectedEOF).
Proof.
  apply (ReadInfo_truncated_input (mkUnpacker false true) (firstn 10 testData)).
  vm_compute. reflexivity.
Defined.

(** ** Extraction of the body *)

(** A [ReadAt] into a fresh buffer of [size] bytes that reports no
    error has filled it with the [size] bytes at [off]. *)
Lemma Reader_ReadAt_make (r : Reader) (size off : Z) (b : list byte) (n : Z) :
  0 <= size -> 0 <= off ->
  Reader_ReadAt r (make_bytes size) off = (b, n, None) ->
  n = size /\ b = bytes_slice (s r) off (off + size) /\
  off + size <= len (s r) /\ off < len (s r).
Proof.
  intros Hsize Hoff. unfold Reader_ReadAt, copy.
  destruct (Z.ltb_spec off 0) as [|_]; [lia|].
  destruct (Z.geb_spec off (len (s r))) as [|Hin]; [discriminate|].
  rewrite len_make_bytes by assumption.
  assert (len (skipn (Z.to_nat off) (s r)) = len (s r) - off) as Hrest.
  { unfold len in *. rewrite length_skipn. lia. }
  rewrite Hrest.
  destruct (Z.ltb_spec (Z.min size (len (s r) - off)) size) as [|Hn];
    [discriminate|].
  intros E. injection E as <- <-.
  assert (Z.min size (len (s r) - off) = size) as -> by lia.
  repeat split; try lia.
  unfold bytes_slice. replace (off + size - off) with size by lia.
  assert (skipn (Z.to_nat size) (make_bytes size) = []) as ->.
  { apply skipn_all2. unfold make_bytes. rewrite repeat_length. lia. }
  apply app_nil_r.
Qed.

Lemma header_of_offsets_nonneg (buf : list byte) :
  0 <= Header_PayloadOffset (header_of buf) /\
  0 <= Header_PayloadSize (header_of buf).
Proof.
  rewrite header_of_fields. cbn [Header_PayloadOffset Header_PayloadSize].
  split; apply LittleEndian_Uint32_nonneg.
Qed.

(** What a successful [ReadInfo] has established. *)
Lemma ReadInfo_bytes_Ok (u : Unpacker) (buf : list byte) (info : BootInfo) :
  ReadInfo_bytes u buf = Ok info ->
  Header_size <= len buf /\ header info = header_of buf /\ unpacker info = u /\
  (ParseBody u = false -> body info = []) /\
  (ParseBody u = true ->
   body info = bytes_slice buf (Header_PayloadOffset (header info))
                 (Header_PayloadOffset (header info) + Header_PayloadSize (header info)) /\
   Header_PayloadOffset (header info) + Header_PayloadSize (header info) <= len buf).
Proof.
  intros HOk.
  destruct (Z.lt_ge_cases (len buf) Header_size) as [Hshort|Hfull].
  { unfold ReadInfo_bytes in HOk.
    rewrite ReadInfo_truncated_input_aux in HOk by assumption. discriminate. }
  split; [assumption|].
  rewrite ReadInfo_bytes_full in HOk by assumption.
  unfold ReadInfo_after_header in HOk.
  destruct (verify_checks _); [discriminate|].
  destruct (_ || _); [discriminate|].
  destruct (_ >? _); [discriminate|].
  destruct (header_of_offsets_nonneg buf) as [Hoff Hsize].
  destruct (ParseBody u) eqn:HP.
  - destruct (Reader_ReadAt _ _ _) as [[b n] [e|]] eqn:HR; [discriminate|].
    apply Reader_ReadAt_make in HR; try assumption.
    destruct HR as (-> & -> & Hle & _).
    destruct (_ =? 0); [discriminate|].
    injection HOk as <-. cbn [header body unpacker s] in *.
    split; [reflexivity|]. split; [reflexivity|]. split; [discriminate|].
    intros _. split; [reflexivity | assumption].
  - injection HOk as <-. cbn [header body unpacker].
    split; [reflexivity|]. split; [reflexivity|]. split; [reflexivity|].
    discriminate.
Qed.

(** [C2] When [ReadInfo] with [ParseBody] succeeds, the header of the
    result is the header decoded from the buffer, and the body is the
    range of the input buffer that starts at [PayloadOffset] and is
    [PayloadSize] bytes long: it is that slice, the range lies within
    the buffer, its length is [PayloadSize], and its byte at every
    position [k] is the byte of the buffer at [PayloadOffset + k]. *)
Theorem body_is_payload_range (u : Unpacker) (buf : list byte) (info : BootInfo) :
  ParseBody u = true ->
  ReadInfo_bytes u buf = Ok info ->
  header info = header_of buf /\
  Body info = bytes_slice buf (Header_PayloadOffset (header info))
                (Header_PayloadOffset (header info) + Header_PayloadSize (header info)) /\
  Header_PayloadOffset (header info) + Header_PayloadSize (header info) <= len buf /\
  len (Body info) = Header_PayloadSize (header info) /\
  (forall k : nat,
      Z.of_nat k < Header_PayloadSize (header info) ->
      nth_error (Body info) k =
        nth_error buf (Z.to_nat (Header_PayloadOffset (header info)) + k)).
Proof.
  intros HP HOk.
  destruct (ReadInfo_bytes_Ok u buf info HOk) as (Hfull & Hhdr & _ & _ & Hbody).
  destruct (Hbody HP) as [Hb Hle]. clear Hbody.
  destruct (header_of_offsets_nonneg buf) as [Hoff Hsize].
  rewrite <- Hhdr in Hoff, Hsize.
  unfold Body. rewrite Hb.
  split; [assumption|]. split; [reflexivity|]. split; [assumption|]. split.
  - rewrite len_bytes_slice; lia.
  - intros k Hk. rewrite nth_error_bytes_slice.
    destruct (Nat.ltb_spec k
                (Z.to_nat (Header_PayloadOffset (header info)
                           + Header_PayloadSize (header info)
                           - Header_PayloadOffset (header info)))) as [_|Hge];
      [reflexivity | lia].
Qed.

Lemma body_is_payload_range_witness :
  header (small_info (mkUnpacker false true)) = header_of small_image /\
  Body (small_info (mkUnpacker false true)) = bytes_slice small_image 64 (64 + 2) /\
  64 + 2 <= len small_image /\
  len (Body (small_info (mkUnpacker false true))) = 2 /\
  (forall k : nat,
      Z.of_nat k < 2 ->
      nth_error (Body (small_info (mkUnpacker false true))) k =
        nth_error small_image (Z.to_nat 64 + k)).
Proof.
  apply (body_is_payload_range (mkUnpacker false true) small_image
           (small_info (mkUnpacker false true))).
  - reflexivity.
  - vm_compute. reflexivity.
Defined.

(** ** The order of the checks *)

Lemma verify_match (c : check) : left c = Data (right c) -> verify c = None.
Proof.
  intros E. rewrite verify_spec.
  destruct (list_eq_dec _ _ _); [reflexivity | contradiction].
Qed.

Lemma verify_mismatch (c : check) :
  left c <> Data (right c) ->
  verify c = Some (ContentMismatch (right c) (left c)).
Proof.
  intros E. rewrite verify_spec.
  destruct (list_eq_dec _ _ _); [contradiction | reflexivity].
Qed.

(** The first magic field that is wrong, in the order DOS magic, Linux
    magic, zimg tag, decides the error. *)
Lemma ReadInfo_first_mismatch (u : Unpacker) (buf : list byte) :
  Header_size <= len buf ->
  (bytes_slice buf 0 2 <> Data MSDOSMagic ->
   ReadInfo_bytes u buf = Err (ContentMismatch MSDOSMagic (bytes_slice buf 0 2))) /\
  (bytes_slice buf 0 2 = Data MSDOSMagic ->
   bytes_slice buf 56 60 <> Data LinuxMagic ->
   ReadInfo_bytes u buf = Err (ContentMismatch LinuxMagic (bytes_slice buf 56 60))) /\
  (bytes_slice buf 0 2 = Data MSDOSMagic ->
   bytes_slice buf 56 60 = Data LinuxMagic ->
   bytes_slice buf 4 8 <> Data ZImg ->
   ReadInfo_bytes u buf = Err (ContentMismatch ZImg (bytes_slice buf 4 8))).
Proof.
  intros Hfull. rewrite ReadInfo_bytes_full by assumption.
  unfold ReadInfo_after_header. rewrite header_of_fields.
  cbn [Header_MSDOSMagic Header_LinuxMagic Header_ZImg verify_checks].
  repeat split.
  - intros Hdos. rewrite verify_mismatch by exact Hdos. reflexivity.
  - intros Hdos Hlinux.
    rewrite (verify_match (mkCheck _ MSDOSMagic)) by exact Hdos.
    rewrite verify_mismatch by exact Hlinux. reflexivity.
  - intros Hdos Hlinux Hzimg.
    rewrite (verify_match (mkCheck _ MSDOSMagic)) by exact Hdos.
    rewrite (verify_match (mkCheck _ LinuxMagic)) by exact Hlinux.
    rewrite verify_mismatch by exact Hzimg. reflexivity.
Qed.

(** With the three magic fields right, [ReadInfo] goes on to the checks
    of the offset and the size. *)
Lemma ReadInfo_magics_valid (u : Unpacker) (buf : list byte) :
  Header_size <= len buf ->
  bytes_slice buf 0 2 = Data MSDOSMagic ->
  bytes_slice buf 4 8 = Data ZImg ->
  bytes_slice buf 56 60 = Data LinuxMagic ->
  verify_checks
    [ mkCheck (Header_MSDOSMagic (header_of buf)) MSDOSMagic;
      mkCheck (Header_LinuxMagic (header_of buf)) LinuxMagic;
      mkCheck (Header_ZImg (header_of buf)) ZImg ] = None.
Proof.
  intros Hfull Hdos Hzimg Hlinux. rewrite header_of_fields.
  cbn [Header_MSDOSMagic Header_LinuxMagic Header_ZImg verify_checks].
  rewrite (verify_match (mkCheck _ MSDOSMagic)) by exact Hdos.
  rewrite (verify_match (mkCheck _ LinuxMagic)) by exact Hlinux.
  rewrite (verify_match (mkCheck _ ZImg)) by exact Hzimg.
  reflexivity.
Qed.

Lemma ContentMismatch_Linux_not_ZImg (a b : list byte) :
  ContentMismatch LinuxMagic a <> ContentMismatch ZImg b.
Proof. unfold ContentMismatch. cbn [Value payload LinuxMagic ZImg]. discriminate. Qed.

(** [C3], as the claim has it, fails: in [two_bad_magics] the DOS magic
    is right and both the zimg tag and the Linux magic are wrong, and
    the error names the Linux magic, not the zimg tag. *)
Lemma zimg_before_linux_refuted :
  Header_size <= len two_bad_magics /\
  bytes_slice two_bad_magics 0 2 = Data MSDOSMagic /\
  bytes_slice two_bad_magics 4 8 <> Data ZImg /\
  bytes_slice two_bad_magics 56 60 <> Data LinuxMagic /\
  ReadInfo_bytes (mkUnpacker false false) two_bad_magics
    <> Err (ContentMismatch ZImg (bytes_slice two_bad_magics 4 8)).
Proof.
  split; [vm_compute; discriminate|].
  split; [reflexivity|].
  split; [vm_compute; discriminate|].
  split; [vm_compute; discriminate|].
  vm_compute. discriminate.
Qed.

(** [C3], amended: the magic fields are checked in the order DOS magic,
    Linux magic, zimg tag.  For every buffer that holds a header, whose
    DOS magic is "MZ" and whose zimg tag and Linux magic are both wrong,
    [ReadInfo] fails with the content mismatch that names the Linux
    magic and shows its observed bytes, not with the one that names the
    zimg tag. *)
Theorem linux_magic_checked_before_zimg (u : Unpacker) (buf : list byte) :
  Header_size <= len buf ->
  bytes_slice buf 0 2 = Data MSDOSMagic ->
  bytes_slice buf 4 8 <> Data ZImg ->
  bytes_slice buf 56 60 <> Data LinuxMagic ->
  ReadInfo_bytes u buf = Err (ContentMismatch LinuxMagic (bytes_slice buf 56 60)) /\
  ReadInfo_bytes u buf <> Err (ContentMismatch ZImg (bytes_slice buf 4 8)).
Proof.
  intros Hfull Hdos _ Hlinux.
  destruct (ReadInfo_first_mismatch u buf Hfull) as (_ & Horder & _).
  rewrite (Horder Hdos Hlinux). split; [reflexivity|].
  intros E.
  apply (ContentMismatch_Linux_not_ZImg (bytes_slice buf 56 60) (bytes_slice buf 4 8)).
  exact (f_equal (fun o => match o with Err e => e | _ => io_EOF end) E).
Qed.

Lemma linux_magic_checked_before_zimg_witness :
  ReadInfo_bytes (mkUnpacker false false) two_bad_magics
    = Err (ContentMismatch LinuxMagic (bytes_slice two_bad_magics 56 60)) /\
  ReadInfo_bytes (mkUnpacker false false) two_bad_magics
    <> Err (ContentMismatch ZImg (bytes_slice two_bad_magics 4 8)).
Proof.
  apply (linux_magic_checked_before_zimg (mkUnpacker false false) two_bad_magics).
  - vm_compute. discriminate.
  - reflexivity.
  - vm_compute. discriminate.
  - vm_compute. discriminate.
Defined.

(** ** The checks of the offset and the size *)

(** [C8] For every buffer that holds a header whose three magic fields
    are right, a zero [PayloadOffset] or a zero [PayloadSize] (either
    one, or both) makes [ReadInfo] fail with "payload size/offset is
    zero"; no [BootInfo] is produced. *)
Theorem zero_offset_or_size_rejected (u : Unpacker) (buf : list byte) :
  Header_size <= len buf ->
  bytes_slice buf 0 2 = Data MSDOSMagic ->
  bytes_slice buf 4 8 = Data ZImg ->
  bytes_slice buf 56 60 = Data LinuxMagic ->
  Header_PayloadOffset (header_of buf) = 0 \/ Header_PayloadSize (header_of buf) = 0 ->
  ReadInfo_bytes u buf = Err InvalidPayloadBounds_zero.
Proof.
  intros Hfull Hdos Hzimg Hlinux Hzero.
  rewrite ReadInfo_bytes_full by assumption. unfold ReadInfo_after_header.
  rewrite ReadInfo_magics_valid by assumption.
  destruct Hzero as [-> | ->]; [reflexivity|].
  rewrite orb_true_r. reflexivity.
Qed.

Lemma zero_offset_or_size_rejected_witness :
  ReadInfo_bytes (mkUnpacker false true)
    (header_with [x40; x00; x00; x00] [x00; x00; x00; x00] ++ [x0a; x0b])
  = Err InvalidPayloadBounds_zero.
Proof.
  apply zero_offset_or_size_rejected.
  - vm_compute. discriminate.
  - reflexivity.
  - reflexivity.
  - reflexivity.
  - right. reflexivity.
Defined.

(** The check of line 144 for a buffer that holds a header: the sum is
    taken on [uint32] and compared with the number of bytes that follow
    the header. *)
Lemma bounds_check_spec (u : Unpacker) (buf : list byte) :
  Header_size <= len buf ->
  verify_checks
    [ mkCheck (Header_MSDOSMagic (header_of buf)) MSDOSMagic;
      mkCheck (Header_LinuxMagic (header_of buf)) LinuxMagic;
      mkCheck (Header_ZImg (header_of buf)) ZImg ] = None ->
  Header_PayloadOffset (header_of buf) <> 0 ->
  Header_PayloadSize (header_of buf) <> 0 ->
  (ReadInfo_bytes u buf = Err InvalidPayloadBounds_beyond <->
   (Header_PayloadOffset (header_of buf) + Header_PayloadSize (header_of buf))
     mod 2 ^ 32 > len buf - Header_size).
Proof.
  intros Hfull Hmagic Hoff Hsize.
  rewrite ReadInfo_bytes_full by assumption. unfold ReadInfo_after_header.
  rewrite Hmagic, Reader_Len_after_header by assumption.
  destruct (Z.eqb_spec (Header_PayloadOffset (header_of buf)) 0) as [|_];
    [contradiction|].
  destruct (Z.eqb_spec (Header_PayloadSize (header_of buf)) 0) as [|_];
    [contradiction|].
  cbn [orb]. unfold uint32_add, uint32_modulus.
  destruct (Z.gtb_spec
              ((Header_PayloadOffset (header_of buf)
                + Header_PayloadSize (header_of buf)) mod 2 ^ 32)
              (len buf - Header_size)) as [Hgt|Hle].
  - split; [intros _; lia | reflexivity].
  - split; [|intros; lia].
    destruct (ParseBody u).
    + destruct (Reader_ReadAt _ _ _) as [[b n] [e|]] eqn:HR.
      * unfold Reader_ReadAt in HR.
        destruct (_ <? 0); [injection HR as _ _ <-; intros E; discriminate E|].
        destruct (_ >=? _); [injection HR as _ _ <-; intros E; discriminate E|].
        destruct (copy _ _). destruct (_ <? _); [|discriminate HR].
        injection HR as _ _ <-. intros E; discriminate E.
      * destruct (n =? 0); intros E; discriminate E.
    + intros E; discriminate E.
Qed.

(** [C1] The check of line 144 does not compare the exact sum with the
    length of the buffer.  In [wrapping_image] (65 bytes) the offset is
    4294967295 and the size 2: the exact sum is far beyond the buffer,
    the [uint32] sum wraps to 1, and [ReadInfo] accepts the header.  In
    [snug_image] (67 bytes) the offset is 64 and the size 2: the exact
    sum 66 is within the buffer, and [ReadInfo] refuses the header,
    because the sum is compared with the 3 bytes left after the
    header. *)
Theorem bounds_check_is_not_exact :
  (len wrapping_image = 65 /\
   Header_PayloadOffset (header_of wrapping_image) = 4294967295 /\
   Header_PayloadSize (header_of wrapping_image) = 2 /\
   ReadInfo_bytes (mkUnpacker false false) wrapping_image
     = Ok (mkBootInfo (header_of wrapping_image) [] (mkUnpacker false false)) /\
   ReadInfo_bytes (mkUnpacker false true) wrapping_image = Err io_EOF) /\
  (len snug_image = 67 /\
   Header_PayloadOffset (header_of snug_image) = 64 /\
   Header_PayloadSize (header_of snug_image) = 2 /\
   ReadInfo_bytes (mkUnpacker false true) snug_image
     = Err InvalidPayloadBounds_beyond).
Proof. repeat split; vm_compute; reflexivity. Qed.

(** ** Write without decompression *)

Lemma body_nonempty (info : BootInfo) :
  body info <> [] -> (len (body info) =? 0) = false.
Proof.
  intros Hne. destruct (body info) as [|b rest]; [contradiction|].
  reflexivity.
Qed.

(** [C9] With a body and without [Decompress], [Write] is one call of
    the sink's [Write] with the stored body: the sink is left as that
    call leaves it, the call is the only one recorded and its argument
    is the body, byte for byte, and the error of [Write] is the error of
    that call.  Neither the gzip library nor the architecture datums
    take part: the result is the same whatever the library is, and a
    body too short to be sniffed is written all the same. *)
Theorem Write_raw_is_one_write
        {gz : GzipLib} {W : Type} {sink : Writer W}
        (info : BootInfo) (w : W) (calls : list (list byte)) :
  body info <> [] ->
  Decompress (unpacker info) = false ->
  Write (sink := Recording W) info (w, calls) =
    let '(w', _, err) := io_Write w (body info) in
    ((w', calls ++ [body info]),
     match err with
     | Some msg => Err (sinkError msg)
     | None => Ok tt
     end).
Proof.
  intros Hne Hraw. unfold Write.
  rewrite body_nonempty by assumption. rewrite Hraw.
  cbn [full_slice elems io_Write Recording fst snd].
  destruct (io_Write w (body info)) as [[w' n] err]. reflexivity.
Qed.

Lemma Write_raw_is_one_write_witness :
  Write (gz := stored_gzip true) (sink := Recording (list byte))
        (mkBootInfo (header_of small_image) [x0a; x0b] (mkUnpacker false true))
        ([x01], [[x01]])
  = (([x01; x0a; x0b], [[x01]; [x0a; x0b]]), Ok tt).
Proof.
  apply (Write_raw_is_one_write (gz := stored_gzip true) (sink := bytes_Buffer)
           (mkBootInfo (header_of small_image) [x0a; x0b] (mkUnpacker false true))
           [x01] [[x01]]).
  - discriminate.
  - reflexivity.
Defined.

(** ** Write with decompression: the compression tag *)

Section WriteDecompress.
Context {gz : GzipLib} {W : Type} {sink : Writer W}.

Lemma decompress_loop_gzip (t : string) (sub : slice) :
  decompress_loop decompressors t false sub =
    if string_dec t (Sprint_bytes (Data Gzip)) then
      match decompressGunzip (elems sub) with
      | (_, Some e) => inr e
      | (d, None) => inl (true, d)
      end
    else inl (false, sub).
Proof.
  unfold decompressors. cbn [decompress_loop bodyType fxn].
  destruct (string_dec _ _) as [_|_]; [|reflexivity].
  destruct (decompressGunzip _) as [d [err|]]; reflexivity.
Qed.

Lemma decompressGunzip_error (input : list byte) (d : slice) (e : error) :
  decompressGunzip input = (d, Some e) -> exists msg, e = gzipError msg.
Proof.
  unfold decompressGunzip.
  destruct (gzip_NewReader input) as [r|msg].
  - destruct (io_ReadAll r) as [d' [msg|]]; cbn [option_map]; intros E;
      [injection E as _ <-; now exists msg | discriminate E].
  - intros E. injection E as _ <-. now exists msg.
Qed.

Lemma errors_Is_ContentMismatch (d : Datum) (observed : list byte) :
  errors_Is (ContentMismatch d observed) ErrIsInvalidContent = true.
Proof. reflexivity. Qed.

(** The loop over [ARM] and [RISC] never fails: it says whether the four
    bytes are those of one of the two. *)
Lemma sniff_loop_spec (val : list byte) :
  sniff_loop [ARM; RISC] val =
    Ok (if list_eq_dec Byte.byte_eq_dec val (Data ARM) then true
        else if list_eq_dec Byte.byte_eq_dec val (Data RISC) then true
        else false).
Proof.
  cbn [sniff_loop]. rewrite !verify_spec. cbn [left right].
  destruct (list_eq_dec _ val (Data ARM)); [reflexivity|].
  fold (ContentMismatch ARM val). rewrite errors_Is_ContentMismatch. cbn [negb].
  destruct (list_eq_dec _ val (Data RISC)); [reflexivity|].
  fold (ContentMismatch RISC val). rewrite errors_Is_ContentMismatch. reflexivity.
Qed.

Lemma sniff_not_UnknownCompressionType (sub : slice) (tag : list byte) :
  sniff sub <> Err (UnknownCompressionType tag).
Proof.
  unfold sniff, UnknownCompressionType.
  destruct (_ <? _); [discriminate|].
  destruct (slice_expr _ _ _) as [val|]; [|discriminate].
  rewrite sniff_loop_spec.
  destruct (list_eq_dec _ _ _); [discriminate|].
  destruct (list_eq_dec _ _ _); discriminate.
Qed.

(** [Write] on a tag that is not the gzip tag. *)
Lemma Write_unknown_tag (info : BootInfo) (w : W) :
  body info <> [] ->
  Decompress (unpacker info) = true ->
  Header_CompressionType (header info) <> Data Gzip ->
  Write info w = (w, Err (UnknownCompressionType (Header_CompressionType (header info)))).
Proof.
  intros Hne Hdec Htag. unfold Write.
  rewrite body_nonempty by assumption. rewrite Hdec.
  unfold decompress_and_sniff. rewrite decompress_loop_gzip.
  destruct (string_dec _ _) as [E|_]; [|reflexivity].
  apply Render.Sprint_bytes_inj in E. contradiction.
Qed.

(** [Write] on the gzip tag never ends with the error of the unknown
    tag. *)
Lemma Write_gzip_tag (info : BootInfo) (w : W) (tag : list byte) :
  body info <> [] ->
  Decompress (unpacker info) = true ->
  Header_CompressionType (header info) = Data Gzip ->
  snd (Write info w) <> Err (UnknownCompressionType tag).
Proof.
  intros Hne Hdec Htag. unfold Write.
  rewrite body_nonempty by assumption. rewrite Hdec.
  unfold decompress_and_sniff. rewrite decompress_loop_gzip, Htag.
  destruct (string_dec _ _) as [_|N]; [|now contradiction N].
  destruct (decompressGunzip _) as [d [e|]] eqn:HG.
  - apply decompressGunzip_error in HG as [msg ->]. cbn [snd]. discriminate.
  - cbn [negb]. destruct (sniff d) as [sub'|e|m] eqn:HS.
    + destruct (io_Write w (elems sub')) as [[w' n] [msg|]]; cbn [snd]; discriminate.
    + cbn [snd]. intros E. apply (sniff_not_UnknownCompressionType d tag).
      rewrite HS. injection E as ->. reflexivity.
    + cbn [snd]. discriminate.
Qed.

End WriteDecompress.

(** [C6] For every [BootInfo] with a body and with [Decompress], [Write]
    fails with the error "unknown compression type" that shows the raw
    tag exactly when the [CompressionType] field is not, byte for byte,
    "gzip" followed by 28 zero bytes.  On that failure the sink is left
    as it was.  The tag of 32 zero bytes fails this way. *)
Theorem unknown_compression_iff_not_gzip
        {gz : GzipLib} {W : Type} {sink : Writer W}
        (info : BootInfo) (w : W) :
  body info <> [] ->
  Decompress (unpacker info) = true ->
  (snd (Write info w) = Err (UnknownCompressionType (Header_CompressionType (header info)))
   <-> Header_CompressionType (header info) <> [x67; x7a; x69; x70] ++ repeat x00 28) /\
  (Header_CompressionType (header info) <> [x67; x7a; x69; x70] ++ repeat x00 28 ->
   fst (Write info w) = w) /\
  (Header_CompressionType (header info) = repeat x00 32 ->
   Write info w = (w, Err (UnknownCompressionType (repeat x00 32)))).
Proof.
  intros Hne Hdec.
  change ([x67; x7a; x69; x70] ++ repeat x00 28) with (Data Gzip).
  split; [split|split].
  - intros E Htag. revert E. now apply Write_gzip_tag.
  - intros Htag. rewrite Write_unknown_tag by assumption. reflexivity.
  - intros Htag. rewrite Write_unknown_tag by assumption. reflexivity.
  - intros Hzero. rewrite Write_unknown_tag; try assumption.
    + rewrite Hzero. reflexivity.
    + rewrite Hzero. discriminate.
Qed.

Lemma unknown_compression_iff_not_gzip_witness :
  (snd (Write (gz := stored_gzip false) (sink := Recording (list byte))
          zero_tag_info ([], []))
   = Err (UnknownCompressionType (Header_CompressionType (header zero_tag_info)))
   <-> Header_CompressionType (header zero_tag_info)
       <> [x67; x7a; x69; x70] ++ repeat x00 28) /\
  (Header_CompressionType (header zero_tag_info)
   <> [x67; x7a; x69; x70] ++ repeat x00 28 ->
   fst (Write (gz := stored_gzip false) (sink := Recording (list byte))
          zero_tag_info ([], [])) = ([], [])) /\
  (Header_CompressionType (header zero_tag_info) = repeat x00 32 ->
   Write (gz := stored_gzip false) (sink := Recording (list byte))
     zero_tag_info ([], [])
   = (([], []), Err (UnknownCompressionType (repeat x00 32)))).
Proof.
  apply (unknown_compression_iff_not_gzip
           (gz := stored_gzip false) (sink := Recording (list byte))
           zero_tag_info ([], [])).
  - discriminate.
  - reflexivity.
Defined.

(** ** The architecture sniff *)

(** The guard of line 196 refuses exactly the payloads shorter than 56
    bytes, with the error that shows their length. *)
Lemma sniff_too_short (sub : slice) :
  slice_len sub < ARM64MagicOffset <-> sniff sub = Err (PayloadTooShort (slice_len sub)).
Proof.
  unfold sniff, PayloadTooShort.
  destruct (Z.ltb_spec (slice_len sub) ARM64MagicOffset) as [Hlt|Hge].
  - split; [reflexivity | intros _; assumption].
  - split; [lia|].
    destruct (slice_expr _ _ _) as [val|]; [|discriminate].
    rewrite sniff_loop_spec.
    destruct (list_eq_dec _ _ _); [discriminate|].
    destruct (list_eq_dec _ _ _); discriminate.
Qed.

(** With 60 bytes or more, the four bytes compared are bytes 56 to 59 of
    the payload. *)
Lemma sniff_read_in_bounds (sub : slice) :
  ARM64MagicOffset + 4 <= slice_len sub ->
  exists val,
    slice_expr sub ARM64MagicOffset (ARM64MagicOffset + 4) = Some val /\
    elems val = bytes_slice (elems sub) ARM64MagicOffset (ARM64MagicOffset + 4).
Proof.
  unfold slice_expr, slice_cap, slice_len, ARM64MagicOffset. intros Hlen.
  pose proof (len_nonneg (spare sub)) as Hs.
  destruct (Z.leb_spec (56 + 4) (len (elems sub) + len (spare sub))) as [_|]; [|lia].
  cbn [Z.leb andb]. eexists. split; [reflexivity|]. cbn [elems].
  apply bytes_slice_ext; [lia|]. intros j Hj.
  apply nth_error_app1. unfold len in Hlen. lia.
Qed.


(** [C4] The guard of the sniff compares the length with 56, and the
    read that follows takes bytes 56 to 59.  For [short_payload] (57
    bytes) the guard passes; when the slice has no spare capacity the
    read panics, and when it has the 512 bytes of capacity [io.ReadAll]
    starts with, the four bytes compared are byte 56 of the payload and
    three bytes of the backing array that lie beyond its length. *)
Theorem sniff_reads_past_short_payload :
  slice_len (mkSlice short_payload []) = 57 /\
  sniff (mkSlice short_payload []) = Panic "slice bounds out of range" /\
  (exists val,
      slice_expr (mkSlice short_payload (repeat x00 455))
                 ARM64MagicOffset (ARM64MagicOffset + 4) = Some val /\
      elems val = [x41; x00; x00; x00] /\
      elems val <> bytes_slice short_payload ARM64MagicOffset (ARM64MagicOffset + 4)) /\
  sniff (mkSlice short_payload (repeat x00 455))
    = Err (errorString "unknown payload type: [65 0 0 0]") /\
  snd (Write (gz := stored_gzip true) (sink := bytes_Buffer)
         (mkBootInfo (header_of testData) short_payload (mkUnpacker true true)) [])
    = Panic "slice bounds out of range".
Proof.
  split; [reflexivity|]. split; [reflexivity|]. split.
  - eexists. split; [vm_compute; reflexivity|].
    split; [reflexivity | vm_compute; discriminate].
  - split; vm_compute; reflexivity.
Qed.

(** ** The registry *)

(** [C7] The datums of the registry produce the canonical bytes:
    [ARM.Data()] is 65 82 77 100, [MSDOSMagic.Data()] is 77 90,
    [Gzip.Data()] is 103 122 105 112 followed by 28 zero bytes (32 bytes
    in all), [LinuxMagic.Data()] is 205 35 130 129.  [Data] is a
    function of the datum alone, so every call yields these bytes. *)
Theorem registry_data :
  map byte_val (Data ARM) = [65; 82; 77; 100] /\
  map byte_val (Data MSDOSMagic) = [77; 90] /\
  map byte_val (Data Gzip) = [103; 122; 105; 112] ++ repeat 0 28 /\
  len (Data Gzip) = 32 /\
  map byte_val (Data LinuxMagic) = [205; 35; 130; 129].
Proof. repeat split; reflexivity. Qed.

(** ** The unchecked bytes of the header *)

Lemma unchecked_false (j : Z) :
  j < 2 \/ 4 <= j < 16 \/ 24 <= j < 60 \/ 64 <= j -> unchecked j = false.
Proof.
  intros Hj. unfold unchecked.
  repeat match goal with
         | |- context [?a <=? ?b] => destruct (Z.leb_spec a b)
         | |- context [?a <? ?b] => destruct (Z.ltb_spec a b)
         end; cbn; try reflexivity; lia.
Qed.

Lemma checked_slice_eq (b1 b2 : list byte) (lo hi : Z) :
  same_outside_unchecked b1 b2 ->
  0 <= lo ->
  (forall j, lo <= j < hi -> unchecked j = false) ->
  bytes_slice b1 lo hi = bytes_slice b2 lo hi.
Proof.
  intros [_ Hsame] Hlo Hrange. apply bytes_slice_ext; [assumption|].
  intros j Hj. apply Hsame; [lia | now apply Hrange].
Qed.

Lemma set_byte_len (k : nat) (v : byte) (l : list byte) :
  len (set_byte k v l) = len l.
Proof.
  unfold len. f_equal. revert k.
  induction l as [|x l IH]; intros [|k]; cbn; try reflexivity.
  now rewrite IH.
Qed.

Lemma set_byte_other (k : nat) (v : byte) (l : list byte) (n : nat) :
  n <> k -> nth_error (set_byte k v l) n = nth_error l n.
Proof.
  revert k n. induction l as [|x l IH]; intros [|k] [|n] Hn; cbn;
    try reflexivity; try contradiction.
  apply IH. congruence.
Qed.

(** Changing an unchecked byte gives a buffer of the same length that
    differs only there. *)
Lemma set_unchecked_byte (k : nat) (v : byte) (l : list byte) :
  unchecked (Z.of_nat k) = true -> same_outside_unchecked l (set_byte k v l).
Proof.
  intros Hk. split; [now rewrite set_byte_len|].
  intros j Hj Hu. symmetry. apply set_byte_other.
  intros E. subst k. rewrite Z2Nat.id in Hk by assumption. congruence.
Qed.

(** A [ReadAt] into a fresh buffer either fills it with the range or
    ends with [io.EOF]; which of the two depends on the length of the
    source alone. *)
Lemma Reader_ReadAt_make_cases (r : Reader) (size off : Z) :
  0 <= size -> 0 <= off ->
  (off < len (s r) /\ off + size <= len (s r) /\
   Reader_ReadAt r (make_bytes size) off
     = (bytes_slice (s r) off (off + size), size, None)) \/
  (~ (off < len (s r) /\ off + size <= len (s r)) /\
   exists b n, Reader_ReadAt r (make_bytes size) off = (b, n, Some io_EOF)).
Proof.
  intros Hsize Hoff.
  destruct (Reader_ReadAt r (make_bytes size) off) as [[b n] [e|]] eqn:HR.
  - right. unfold Reader_ReadAt, copy in HR.
    destruct (Z.ltb_spec off 0) as [|_]; [lia|].
    destruct (Z.geb_spec off (len (s r))) as [Hout|Hin].
    + injection HR as _ _ <-. split; [lia | eauto].
    + rewrite len_make_bytes in HR by assumption.
      assert (len (skipn (Z.to_nat off) (s r)) = len (s r) - off) as Hrest.
      { unfold len in *. rewrite length_skipn. lia. }
      rewrite Hrest in HR.
      destruct (Z.ltb_spec (Z.min size (len (s r) - off)) size) as [Hn|Hn];
        [|discriminate HR].
      injection HR as _ _ <-. split; [lia | eauto].
  - left. apply Reader_ReadAt_make in HR; try assumption.
    destruct HR as (-> & -> & Hle & Hin). auto.
Qed.

(** [C10], as the claim has it, fails: the two buffers differ in byte 2
    alone, a reserved byte, [ReadInfo] succeeds on both, and the bodies
    differ, because the payload range of the header (offset 2, size 2)
    lies over that byte. *)
Lemma unchecked_bytes_reach_body :
  same_outside_unchecked overlapping_image (set_byte 2 x01 overlapping_image) /\
  exists i1 i2,
    ReadInfo_bytes (mkUnpacker false true) overlapping_image = Ok i1 /\
    ReadInfo_bytes (mkUnpacker false true) (set_byte 2 x01 overlapping_image) = Ok i2 /\
    Body i1 = [x00; x00] /\ Body i2 = [x01; x00] /\ Body i1 <> Body i2.
Proof.
  split; [apply set_unchecked_byte; reflexivity|].
  eexists. eexists.
  split; [vm_compute; reflexivity|].
  split; [vm_compute; reflexivity|].
  split; [reflexivity|]. split; [reflexivity|]. discriminate.
Qed.

(** [C10], amended: [ReadInfo] does not look at the unchecked bytes.
    For two buffers of equal length that differ at most in the reserved
    bytes (offsets 2 to 3 and 16 to 23) and the bytes of the PE header
    offset (offsets 60 to 63), [ReadInfo] with the same options either
    fails on both with the same error, or succeeds on both with the same
    offset and size; the two bodies then hold the same byte at every
    position that is not one of the unchecked bytes of the buffer, and
    they are identical when the payload starts after the header
    ([PayloadOffset >= 64]). *)
Theorem ReadInfo_ignores_unchecked (u : Unpacker) (b1 b2 : list byte) :
  same_outside_unchecked b1 b2 ->
  (exists e, ReadInfo_bytes u b1 = Err e /\ ReadInfo_bytes u b2 = Err e) \/
  (exists i1 i2,
      ReadInfo_bytes u b1 = Ok i1 /\ ReadInfo_bytes u b2 = Ok i2 /\
      Header_PayloadOffset (header i1) = Header_PayloadOffset (header i2) /\
      Header_PayloadSize (header i1) = Header_PayloadSize (header i2) /\
      (forall k : nat,
          unchecked (Header_PayloadOffset (header i1) + Z.of_nat k) = false ->
          nth_error (Body i1) k = nth_error (Body i2) k) /\
      (Header_size <= Header_PayloadOffset (header i1) -> Body i1 = Body i2)).
Proof.
  intros Hsame. pose proof Hsame as [Hlen Hnth].
  destruct (Z.lt_ge_cases (len b1) Header_size) as [Hshort|Hfull].
  { left. unfold ReadInfo_bytes.
    rewrite !ReadInfo_truncated_input_aux by lia. rewrite Hlen. eauto. }
  rewrite !ReadInfo_bytes_full by lia.
  unfold ReadInfo_after_header.
  rewrite !Reader_Len_after_header by lia.
  destruct (header_of_offsets_nonneg b1) as [Hoff Hsize]. revert Hoff Hsize.
  rewrite !header_of_fields.
  cbn [Header_MSDOSMagic Header_LinuxMagic Header_ZImg
       Header_PayloadOffset Header_PayloadSize].
  rewrite (checked_slice_eq b1 b2 0 2 Hsame)
    by (try lia; intros; apply unchecked_false; lia).
  rewrite (checked_slice_eq b1 b2 56 60 Hsame)
    by (try lia; intros; apply unchecked_false; lia).
  rewrite (checked_slice_eq b1 b2 4 8 Hsame)
    by (try lia; intros; apply unchecked_false; lia).
  rewrite (checked_slice_eq b1 b2 8 12 Hsame)
    by (try lia; intros; apply unchecked_false; lia).
  rewrite (checked_slice_eq b1 b2 12 16 Hsame)
    by (try lia; intros; apply unchecked_false; lia).
  rewrite Hlen.
  set (off := LittleEndian_Uint32 (bytes_slice b2 8 12)).
  set (size := LittleEndian_Uint32 (bytes_slice b2 12 16)).
  intros Hoff Hsize.
  destruct (verify_checks _) as [e|]; [left; eauto|].
  destruct (_ || _); [left; eauto|].
  destruct (_ >? _); [left; eauto|].
  destruct (ParseBody u).
  2:{ right. do 2 eexists. split; [reflexivity|]. split; [reflexivity|].
      cbn [header body Body Header_PayloadOffset Header_PayloadSize].
      repeat split; reflexivity. }
  destruct (Reader_ReadAt_make_cases (mkReader b1 Header_size) size off Hsize Hoff)
    as [(Hin1 & Hle1 & ->) | (Hno1 & x1 & n1 & ->)];
    destruct (Reader_ReadAt_make_cases (mkReader b2 Header_size) size off Hsize Hoff)
    as [(Hin2 & Hle2 & ->) | (Hno2 & x2 & n2 & ->)]; cbn [s] in *.
  - destruct (size =? 0); [left; eauto|].
    right. do 2 eexists. split; [reflexivity|]. split; [reflexivity|].
    cbn [header body Body Header_PayloadOffset Header_PayloadSize].
    split; [reflexivity|]. split; [reflexivity|]. split.
    + intros k Hk. rewrite !nth_error_bytes_slice.
      destruct (Nat.ltb_spec k (Z.to_nat (off + size - off))) as [_|_];
        [|reflexivity].
      specialize (Hnth (off + Z.of_nat k)).
      replace (Z.to_nat (off + Z.of_nat k)) with (Z.to_nat off + k)%nat in Hnth by lia.
      apply Hnth; [lia | assumption].
    + intros Hpast. apply bytes_slice_ext; [assumption|].
      intros j Hj. apply Hnth; [lia|]. apply unchecked_false.
      unfold Header_size in Hpast. lia.
  - exfalso. apply Hno2. rewrite <- Hlen. auto.
  - exfalso. apply Hno1. rewrite Hlen. auto.
  - left. eauto.
Qed.

Lemma ReadInfo_ignores_unchecked_witness :
  (exists e,
      ReadInfo_bytes (mkUnpacker false true) small_image = Err e /\
      ReadInfo_bytes (mkUnpacker false true) (set_byte 17 xff small_image) = Err e) \/
  (exists i1 i2,
      ReadInfo_bytes (mkUnpacker false true) small_image = Ok i1 /\
      ReadInfo_bytes (mkUnpacker false true) (set_byte 17 xff small_image) = Ok i2 /\
      Header_PayloadOffset (header i1) = Header_PayloadOffset (header i2) /\
      Header_PayloadSize (header i1) = Header_PayloadSize (header i2) /\
      (forall k : nat,
          unchecked (Header_PayloadOffset (header i1) + Z.of_nat k) = false ->
          nth_error (Body i1) k = nth_error (Body i2) k) /\
      (Header_size <= Header_PayloadOffset (header i1) -> Body i1 = Body i2)).
Proof.
  apply (ReadInfo_ignores_unchecked (mkUnpacker false true)
           small_image (set_byte 17 xff small_image)).
  apply set_unchecked_byte. reflexivity.
Defined.

(** * Further properties of the package *)

(** ** check.verify and the registry *)

(** [X1] [verify] compares renderings, and yet it accepts exactly the
    observed bytes that are the bytes of the datum.  Every error it
    returns is recognised by [errors.Is(err, ErrIsInvalidContent)], and
    it names the datum and shows the observed and the expected bytes. *)
Theorem verify_accepts_same_bytes (c : check) :
  (verify c = None <-> left c = Data (right c)) /\
  (forall e, verify c = Some e ->
             errors_Is e ErrIsInvalidContent = true /\
             e = ContentMismatch (right c) (left c)).
Proof.
  rewrite verify_spec.
  destruct (list_eq_dec Byte.byte_eq_dec (left c) (Data (right c))) as [E|N].
  - split; [tauto | discriminate].
  - split; [split; [discriminate | contradiction]|].
    intros e [= <-]. split; reflexivity.
Qed.





(** ** The layout of the header *)

Lemma lor_high_add (a k n : Z) :
  0 <= n -> 0 <= a < 2 ^ n -> Z.lor a (k * 2 ^ n) = a + k * 2 ^ n.
Proof.
  intros Hn Ha. rewrite <- (Z.add_lor_land a (k * 2 ^ n)).
  assert (Z.land a (k * 2 ^ n) = 0) as ->; [|lia].
  apply Z.bits_inj'. intros m Hm. rewrite Z.land_spec, Z.bits_0.
  destruct (Z.lt_ge_cases m n) as [Hlow|Hhigh].
  - rewrite Z.mul_pow2_bits_low by assumption. apply andb_false_r.
  - destruct (Z.eq_dec a 0) as [->|Hnz]; [now rewrite Z.bits_0|].
    rewrite Z.bits_above_log2; [reflexivity | lia |].
    apply Z.lt_le_trans with n; [|assumption].
    apply Z.log2_lt_pow2; lia.
Qed.

Lemma byte_val_bound (b : byte) : 0 <= byte_val b < 256.
Proof.
  unfold byte_val. pose proof (Byte.to_N_bounded b). lia.
Qed.

(** The value [binary.LittleEndian.Uint32] gives to four bytes. *)
Lemma LittleEndian_Uint32_value (b0 b1 b2 b3 : byte) :
  LittleEndian_Uint32 [b0; b1; b2; b3] =
    byte_val b0 + 2 ^ 8 * byte_val b1 + 2 ^ 16 * byte_val b2 + 2 ^ 24 * byte_val b3.
Proof.
  unfold LittleEndian_Uint32.
  pose proof (byte_val_bound b0). pose proof (byte_val_bound b1).
  pose proof (byte_val_bound b2). pose proof (byte_val_bound b3).
  rewrite !Z.shiftl_mul_pow2 by lia.
  rewrite (lor_high_add (byte_val b2 * 2 ^ 16) (byte_val b3) 24) by lia.
  replace (byte_val b2 * 2 ^ 16 + byte_val b3 * 2 ^ 24)
    with ((byte_val b2 + byte_val b3 * 2 ^ 8) * 2 ^ 16) by lia.
  rewrite (lor_high_add (byte_val b1 * 2 ^ 8) _ 16) by lia.
  replace (byte_val b1 * 2 ^ 8 + (byte_val b2 + byte_val b3 * 2 ^ 8) * 2 ^ 16)
    with ((byte_val b1 + byte_val b2 * 2 ^ 8 + byte_val b3 * 2 ^ 16) * 2 ^ 8) by lia.
  rewrite (lor_high_add (byte_val b0) _ 8) by lia. lia.
Qed.

Lemma LittleEndian_Uint32_range (bs : list byte) :
  0 <= LittleEndian_Uint32 bs < 2 ^ 32.
Proof.
  destruct bs as [|b0 [|b1 [|b2 [|b3 [|? ?]]]]]; try (cbn; lia).
  rewrite LittleEndian_Uint32_value.
  pose proof (byte_val_bound b0). pose proof (byte_val_bound b1).
  pose proof (byte_val_bound b2). pose proof (byte_val_bound b3). lia.
Qed.

Lemma nth_error_slice4 (buf : list byte) (lo : Z) :
  0 <= lo -> lo + 4 <= len buf ->
  exists b0 b1 b2 b3,
    bytes_slice buf lo (lo + 4) = [b0; b1; b2; b3] /\
    nth_error buf (Z.to_nat lo) = Some b0 /\
    nth_error buf (Z.to_nat lo + 1) = Some b1 /\
    nth_error buf (Z.to_nat lo + 2) = Some b2 /\
    nth_error buf (Z.to_nat lo + 3) = Some b3.
Proof.
  intros Hlo Hhi.
  assert (len (bytes_slice buf lo (lo + 4)) = 4) as Hlen
      by (rewrite len_bytes_slice; lia).
  pose proof (fun k => nth_error_bytes_slice buf lo (lo + 4) k) as Hnth.
  replace (lo + 4 - lo) with 4 in Hnth by lia.
  destruct (bytes_slice buf lo (lo + 4)) as [|b0 [|b1 [|b2 [|b3 [|? ?]]]]];
    try (cbn in Hlen; lia).
  exists b0, b1, b2, b3. split; [reflexivity|].
  pose proof (Hnth 0%nat) as H0. pose proof (Hnth 1%nat) as H1.
  pose proof (Hnth 2%nat) as H2. pose proof (Hnth 3%nat) as H3.
  cbn in H0, H1, H2, H3. rewrite Nat.add_0_r in H0. auto.
Qed.

(** [X3] The header is read from the first 64 bytes of the buffer, field
    after field without padding: every field is the slice of the buffer
    at its offset of the layout, with its declared width, and
    [PayloadOffset] and [PayloadSize] are the little-endian values of
    bytes 8 to 11 and 12 to 15, both below [2^32]. *)
Theorem header_layout (buf : list byte) :
  Header_size <= len buf ->
  header_of buf =
    mkHeader (bytes_slice buf 0 2) (bytes_slice buf 2 4) (bytes_slice buf 4 8)
             (LittleEndian_Uint32 (bytes_slice buf 8 12))
             (LittleEndian_Uint32 (bytes_slice buf 12 16))
             (bytes_slice buf 16 24) (bytes_slice buf 24 56) (bytes_slice buf 56 60)
             (LittleEndian_Uint32 (bytes_slice buf 60 64)) /\
  (len (Header_MSDOSMagic (header_of buf)) = 2 /\
   len (Header_Reserved0 (header_of buf)) = 2 /\
   len (Header_ZImg (header_of buf)) = 4 /\
   len (Header_Reserved1 (header_of buf)) = 8 /\
   len (Header_CompressionType (header_of buf)) = 32 /\
   len (Header_LinuxMagic (header_of buf)) = 4) /\
  (exists b8 b9 b10 b11 b12 b13 b14 b15,
      nth_error buf 8 = Some b8 /\ nth_error buf 9 = Some b9 /\
      nth_error buf 10 = Some b10 /\ nth_error buf 11 = Some b11 /\
      nth_error buf 12 = Some b12 /\ nth_error buf 13 = Some b13 /\
      nth_error buf 14 = Some b14 /\ nth_error buf 15 = Some b15 /\
      Header_PayloadOffset (header_of buf)
        = byte_val b8 + 2 ^ 8 * byte_val b9 + 2 ^ 16 * byte_val b10
          + 2 ^ 24 * byte_val b11 /\
      Header_PayloadSize (header_of buf)
        = byte_val b12 + 2 ^ 8 * byte_val b13 + 2 ^ 16 * byte_val b14
          + 2 ^ 24 * byte_val b15) /\
  0 <= Header_PayloadOffset (header_of buf) < 2 ^ 32 /\
  0 <= Header_PayloadSize (header_of buf) < 2 ^ 32.
Proof.
  intros Hfull. unfold Header_size in Hfull.
  split; [apply header_of_fields|]. rewrite header_of_fields.
  cbn [Header_MSDOSMagic Header_Reserved0 Header_ZImg Header_Reserved1
       Header_CompressionType Header_LinuxMagic
       Header_PayloadOffset Header_PayloadSize].
  split; [rewrite !len_bytes_slice by lia; repeat split; reflexivity|].
  split; [|split; apply LittleEndian_Uint32_range].
  destruct (nth_error_slice4 buf 8) as (b8 & b9 & b10 & b11 & E1 & ? & ? & ? & ?);
    try lia.
  destruct (nth_error_slice4 buf 12) as (b12 & b13 & b14 & b15 & E2 & ? & ? & ? & ?);
    try lia.
  exists b8, b9, b10, b11, b12, b13, b14, b15.
  change (8 + 4) with 12 in E1. change (12 + 4) with 16 in E2.
  rewrite E1, E2, !LittleEndian_Uint32_value.
  repeat split; assumption || reflexivity.
Qed.

Lemma header_layout_witness :
  header_of small_image =
    mkHeader (bytes_slice small_image 0 2) (bytes_slice small_image 2 4)
             (bytes_slice small_image 4 8)
             (LittleEndian_Uint32 (bytes_slice small_image 8 12))
             (LittleEndian_Uint32 (bytes_slice small_image 12 16))
             (bytes_slice small_image 16 24) (bytes_slice small_image 24 56)
             (bytes_slice small_image 56 60)
             (LittleEndian_Uint32 (bytes_slice small_image 60 64)) /\
  (len (Header_MSDOSMagic (header_of small_image)) = 2 /\
   len (Header_Reserved0 (header_of small_image)) = 2 /\
   len (Header_ZImg (header_of small_image)) = 4 /\
   len (Header_Reserved1 (header_of small_image)) = 8 /\
   len (Header_CompressionType (header_of small_image)) = 32 /\
   len (Header_LinuxMagic (header_of small_image)) = 4) /\
  (exists b8 b9 b10 b11 b12 b13 b14 b15,
      nth_error small_image 8 = Some b8 /\ nth_error small_image 9 = Some b9 /\
      nth_error small_image 10 = Some b10 /\ nth_error small_image 11 = Some b11 /\
      nth_error small_image 12 = Some b12 /\ nth_error small_image 13 = Some b13 /\
      nth_error small_image 14 = Some b14 /\ nth_error small_image 15 = Some b15 /\
      Header_PayloadOffset (header_of small_image)
        = byte_val b8 + 2 ^ 8 * byte_val b9 + 2 ^ 16 * byte_val b10
          + 2 ^ 24 * byte_val b11 /\
      Header_PayloadSize (header_of small_image)
        = byte_val b12 + 2 ^ 8 * byte_val b13 + 2 ^ 16 * byte_val b14
          + 2 ^ 24 * byte_val b15) /\
  0 <= Header_PayloadOffset (header_of small_image) < 2 ^ 32 /\
  0 <= Header_PayloadSize (header_of small_image) < 2 ^ 32.
Proof.
  apply (header_layout small_image). vm_compute. discriminate.
Defined.

(** ** The decisions of ReadInfo *)

(** [ReadInfo] on a buffer that holds a header, as a table of
    decisions on the bytes of the buffer. *)
Lemma ReadInfo_decisions (u : Unpacker) (buf : list byte) :
  Header_size <= len buf ->
  ReadInfo_bytes u buf =
    let off := Header_PayloadOffset (header_of buf) in
    let size := Header_PayloadSize (header_of buf) in
    if list_eq_dec Byte.byte_eq_dec (bytes_slice buf 0 2) (Data MSDOSMagic) then
      if list_eq_dec Byte.byte_eq_dec (bytes_slice buf 56 60) (Data LinuxMagic) then
        if list_eq_dec Byte.byte_eq_dec (bytes_slice buf 4 8) (Data ZImg) then
          if (off =? 0) || (size =? 0) then Err InvalidPayloadBounds_zero
          else if (off + size) mod 2 ^ 32 >? len buf - Header_size
               then Err InvalidPayloadBounds_beyond
          else if ParseBody u then
            if off + size <=? len buf
            then Ok (mkBootInfo (header_of buf) (bytes_slice buf off (off + size)) u)
            else Err io_EOF
          else Ok (mkBootInfo (header_of buf) [] u)
        else Err (ContentMismatch ZImg (bytes_slice buf 4 8))
      else Err (ContentMismatch LinuxMagic (bytes_slice buf 56 60))
    else Err (ContentMismatch MSDOSMagic (bytes_slice buf 0 2)).
Proof.
  intros Hfull. cbv zeta.
  destruct (ReadInfo_first_mismatch u buf Hfull) as (Hdos & Hlinux & Hzimg).
  destruct (list_eq_dec _ (bytes_slice buf 0 2) _) as [Edos|Ndos]; [|auto].
  destruct (list_eq_dec _ (bytes_slice buf 56 60) _) as [Elinux|Nlinux]; [|auto].
  destruct (list_eq_dec _ (bytes_slice buf 4 8) _) as [Ezimg|Nzimg]; [|auto].
  clear Hdos Hlinux Hzimg.
  rewrite ReadInfo_bytes_full by assumption. unfold ReadInfo_after_header.
  rewrite ReadInfo_magics_valid, Reader_Len_after_header by assumption.
  destruct (_ || _) eqn:Hzero; [reflexivity|].
  unfold uint32_add, uint32_modulus.
  destruct (_ >? _); [reflexivity|].
  destruct (ParseBody u); [|reflexivity].
  apply orb_false_elim in Hzero as [Hoff Hsize].
  apply Z.eqb_neq in Hoff, Hsize.
  destruct (header_of_offsets_nonneg buf) as [Hoff0 Hsize0].
  destruct (Reader_ReadAt_make_cases (mkReader buf Header_size) _ _ Hsize0 Hoff0)
    as [(Hin & Hle & ->) | (Hno & b & n & ->)]; cbn [s] in *.
  - destruct (Z.eqb_spec (Header_PayloadSize (header_of buf)) 0) as [|_];
      [contradiction|].
    destruct (Z.leb_spec (Header_PayloadOffset (header_of buf)
                          + Header_PayloadSize (header_of buf)) (len buf)) as [_|];
      [reflexivity | lia].
  - destruct (Z.leb_spec (Header_PayloadOffset (header_of buf)
                          + Header_PayloadSize (header_of buf)) (len buf)) as [Hle|_];
      [|reflexivity].
    exfalso. apply Hno. lia.
Qed.

(** [X4] The buffers [ReadInfo] accepts: it returns a [BootInfo] exactly
    when the buffer holds a header (64 bytes), the three magic fields
    are right, the offset and the size are not zero, their [uint32] sum
    is at most the number of bytes after the header and, with
    [ParseBody], the range they name ends within the buffer.  The
    [BootInfo] is then the decoded header, the options, and as body the
    named range of the buffer (with [ParseBody]) or nothing. *)
Theorem ReadInfo_accepts_iff (u : Unpacker) (buf : list byte) :
  ((exists info, ReadInfo_bytes u buf = Ok info) <->
   Header_size <= len buf /\
   bytes_slice buf 0 2 = Data MSDOSMagic /\
   bytes_slice buf 56 60 = Data LinuxMagic /\
   bytes_slice buf 4 8 = Data ZImg /\
   Header_PayloadOffset (header_of buf) <> 0 /\
   Header_PayloadSize (header_of buf) <> 0 /\
   (Header_PayloadOffset (header_of buf) + Header_PayloadSize (header_of buf))
     mod 2 ^ 32 <= len buf - Header_size /\
   (ParseBody u = true ->
    Header_PayloadOffset (header_of buf) + Header_PayloadSize (header_of buf)
      <= len buf)) /\
  (forall info,
      ReadInfo_bytes u buf = Ok info ->
      info = mkBootInfo (header_of buf)
               (if ParseBody u
                then bytes_slice buf (Header_PayloadOffset (header_of buf))
                       (Header_PayloadOffset (header_of buf)
                        + Header_PayloadSize (header_of buf))
                else [])
               u).
Proof.
  destruct (Z.lt_ge_cases (len buf) Header_size) as [Hshort|Hfull].
  { assert (forall info, ReadInfo_bytes u buf <> Ok info) as Hno.
    { intros info. unfold ReadInfo_bytes.
      rewrite ReadInfo_truncated_input_aux by assumption. discriminate. }
    split; [split|].
    - intros [info H]. now apply Hno in H.
    - intros [H _]. lia.
    - intros info H. now apply Hno in H. }
  rewrite (ReadInfo_decisions u buf Hfull). cbv zeta.
  destruct (list_eq_dec _ (bytes_slice buf 0 2) _) as [Edos|Ndos];
    [|split; [split; [intros [? [=]] | tauto] | intros ? [=]]].
  destruct (list_eq_dec _ (bytes_slice buf 56 60) _) as [Elinux|Nlinux];
    [|split; [split; [intros [? [=]] | tauto] | intros ? [=]]].
  destruct (list_eq_dec _ (bytes_slice buf 4 8) _) as [Ezimg|Nzimg];
    [|split; [split; [intros [? [=]] | tauto] | intros ? [=]]].
  destruct (Z.eqb_spec (Header_PayloadOffset (header_of buf)) 0) as [Eoff|Noff];
    [split; [split; [intros [? [=]] | tauto] | intros ? [=]]|].
  destruct (Z.eqb_spec (Header_PayloadSize (header_of buf)) 0) as [Esize|Nsize];
    [split; [split; [intros [? [=]] | tauto] | intros ? [=]]|].
  cbn [orb].
  destruct (Z.gtb_spec
              ((Header_PayloadOffset (header_of buf)
                + Header_PayloadSize (header_of buf)) mod 2 ^ 32)
              (len buf - Header_size)) as [Hgt|Hle];
    [split; [split; [intros [? [=]] | intros; exfalso; lia] | intros ? [=]]|].
  destruct (ParseBody u).
  - destruct (Z.leb_spec (Header_PayloadOffset (header_of buf)
                          + Header_PayloadSize (header_of buf)) (len buf))
      as [Hin|Hout].
    + split; [split; [tauto | eauto] | now intros ? [= <-]].
    + split; [split; [intros [? [=]] | intros (_&_&_&_&_&_&_&H); specialize (H eq_refl); lia]
             | intros ? [=]].
  - split; [split; [intros _; repeat split; try assumption; discriminate | eauto]
           | now intros ? [= <-]].
Qed.

(** [X5] The errors of [ReadInfo] on a buffer: [io.EOF] on the empty
    buffer, [io.ErrUnexpectedEOF] on 1 to 63 bytes and, from 64 bytes
    on, the mismatch of one of the three magic fields, the zero offset
    or size, the range beyond the size, or the [io.EOF] of [ReadAt].
    The last one needs [ParseBody] and a sum of offset and size of
    [2^32] or more: when the sum does not wrap, the read of the body
    cannot fail after the checks.  In particular the error "invalid
    seek, zero" is never returned. *)
Theorem ReadInfo_error_cases (u : Unpacker) (buf : list byte) (e : error) :
  ReadInfo_bytes u buf = Err e ->
  (len buf = 0 /\ e = io_EOF) \/
  (0 < len buf < Header_size /\ e = io_ErrUnexpectedEOF) \/
  (Header_size <= len buf /\
   (e = ContentMismatch MSDOSMagic (bytes_slice buf 0 2) \/
    e = ContentMismatch LinuxMagic (bytes_slice buf 56 60) \/
    e = ContentMismatch ZImg (bytes_slice buf 4 8) \/
    e = InvalidPayloadBounds_zero \/
    e = InvalidPayloadBounds_beyond \/
    (e = io_EOF /\ ParseBody u = true /\
     2 ^ 32 <= Header_PayloadOffset (header_of buf)
               + Header_PayloadSize (header_of buf)))).
Proof.
  pose proof (len_nonneg buf) as Hpos.
  destruct (Z.lt_ge_cases (len buf) Header_size) as [Hshort|Hfull].
  { unfold ReadInfo_bytes. rewrite ReadInfo_truncated_input_aux by assumption.
    destruct (Z.eqb_spec (len buf) 0) as [E0|N0]; intros [= <-]; [left|right; left];
      split; try reflexivity; lia. }
  rewrite (ReadInfo_decisions u buf Hfull). cbv zeta.
  intros HE. right. right. split; [assumption|].
  destruct (list_eq_dec _ (bytes_slice buf 0 2) _); [|injection HE as <-; tauto].
  destruct (list_eq_dec _ (bytes_slice buf 56 60) _); [|injection HE as <-; tauto].
  destruct (list_eq_dec _ (bytes_slice buf 4 8) _); [|injection HE as <-; tauto].
  destruct (_ || _); [injection HE as <-; tauto|].
  destruct (Z.gtb_spec
              ((Header_PayloadOffset (header_of buf)
                + Header_PayloadSize (header_of buf)) mod 2 ^ 32)
              (len buf - Header_size)) as [Hgt|Hle];
    [injection HE as <-; tauto|].
  destruct (ParseBody u); [|discriminate HE].
  destruct (Z.leb_spec (Header_PayloadOffset (header_of buf)
                        + Header_PayloadSize (header_of buf)) (len buf))
    as [Hin|Hout]; [discriminate HE|].
  injection HE as <-. do 5 right. split; [reflexivity|]. split; [reflexivity|].
  destruct (header_of_offsets_nonneg buf) as [Hoff Hsize].
  destruct (Z.lt_ge_cases
              (Header_PayloadOffset (header_of buf)
               + Header_PayloadSize (header_of buf)) (2 ^ 32)) as [Hsmall|Hbig];
    [|assumption].
  rewrite Z.mod_small in Hle by lia. unfold Header_size in *. lia.
Qed.

Lemma ReadInfo_error_cases_witness :
  (len wrapping_image = 0 /\ io_EOF = io_EOF) \/
  (0 < len wrapping_image < Header_size /\ io_EOF = io_ErrUnexpectedEOF) \/
  (Header_size <= len wrapping_image /\
   (io_EOF = ContentMismatch MSDOSMagic (bytes_slice wrapping_image 0 2) \/
    io_EOF = ContentMismatch LinuxMagic (bytes_slice wrapping_image 56 60) \/
    io_EOF = ContentMismatch ZImg (bytes_slice wrapping_image 4 8) \/
    io_EOF = InvalidPayloadBounds_zero \/
    io_EOF = InvalidPayloadBounds_beyond \/
    (io_EOF = io_EOF /\ ParseBody (mkUnpacker false true) = true /\
     2 ^ 32 <= Header_PayloadOffset (header_of wrapping_image)
               + Header_PayloadSize (header_of wrapping_image)))).
Proof.
  apply (ReadInfo_error_cases (mkUnpacker false true) wrapping_image io_EOF).
  vm_compute. reflexivity.
Defined.

(** [X6] [ReadInfo] moves the reader past the header and no further:
    after the call on a fresh reader the reading index is 64, whatever
    the outcome, or the length of the buffer when it is shorter than the
    header.  The body is read with [ReadAt], which leaves the index
    alone. *)
Theorem ReadInfo_reader_after_call (u : Unpacker) (buf : list byte) :
  fst (ReadInfo u (Some (NewReader buf)))
    = Some (mkReader buf (Z.min (len buf) Header_size)).
Proof.
  unfold ReadInfo.
  destruct (Z.lt_ge_cases (len buf) Header_size) as [Hshort|Hfull].
  - rewrite binary_Read_short by assumption. rewrite Z.min_l by lia. reflexivity.
  - rewrite binary_Read_full by assumption. rewrite Z.min_r by lia. reflexivity.
Qed.

(** [X7] The magic fields are checked before the offset and the size,
    and the DOS magic first: whatever the other bytes of the header are
    (a zero offset, a range beyond the buffer), a wrong DOS magic is the
    error reported, and with the DOS and Linux magic right a wrong zimg
    tag is. *)
Theorem magic_checked_before_bounds (u : Unpacker) (buf : list byte) :
  Header_size <= len buf ->
  (bytes_slice buf 0 2 <> Data MSDOSMagic ->
   ReadInfo_bytes u buf = Err (ContentMismatch MSDOSMagic (bytes_slice buf 0 2))) /\
  (bytes_slice buf 0 2 = Data MSDOSMagic ->
   bytes_slice buf 56 60 = Data LinuxMagic ->
   bytes_slice buf 4 8 <> Data ZImg ->
   ReadInfo_bytes u buf = Err (ContentMismatch ZImg (bytes_slice buf 4 8))).
Proof.
  intros Hfull.
  destruct (ReadInfo_first_mismatch u buf Hfull) as (Hdos & _ & Hzimg).
  split; assumption.
Qed.

Lemma magic_checked_before_bounds_witness :
  (bytes_slice bad_dos_image 0 2 <> Data MSDOSMagic ->
   ReadInfo_bytes (mkUnpacker false true) bad_dos_image
   = Err (ContentMismatch MSDOSMagic (bytes_slice bad_dos_image 0 2))) /\
  (bytes_slice bad_dos_image 0 2 = Data MSDOSMagic ->
   bytes_slice bad_dos_image 56 60 = Data LinuxMagic ->
   bytes_slice bad_dos_image 4 8 <> Data ZImg ->
   ReadInfo_bytes (mkUnpacker false true) bad_dos_image
   = Err (ContentMismatch ZImg (bytes_slice bad_dos_image 4 8))).
Proof.
  apply (magic_checked_before_bounds (mkUnpacker false true) bad_dos_image).
  vm_compute. discriminate.
Defined.

(** ** ReadInfo followed by Write *)

(** [X8] A [BootInfo] read without [ParseBody] has no body, and [Write]
    refuses it with "no body" whatever [Decompress] is, leaving the sink
    as it was. *)
Theorem Write_after_ReadInfo_without_body
        {gz : GzipLib} {W : Type} {sink : Writer W}
        (u : Unpacker) (buf : list byte) (info : BootInfo) (w : W) :
  ParseBody u = false ->
  ReadInfo_bytes u buf = Ok info ->
  Body info = [] /\ Write info w = (w, Err (errorString "no body")).
Proof.
  intros HP HOk.
  destruct (ReadInfo_bytes_Ok u buf info HOk) as (_ & _ & _ & Hnone & _).
  unfold Body, Write. rewrite (Hnone HP). split; reflexivity.
Qed.

Lemma Write_after_ReadInfo_without_body_witness :
  Body (mkBootInfo (header_of small_image) [] (mkUnpacker true false)) = [] /\
  Write (gz := stored_gzip false) (sink := bytes_Buffer)
        (mkBootInfo (header_of small_image) [] (mkUnpacker true false)) [x01]
  = ([x01], Err (errorString "no body")).
Proof.
  apply (Write_after_ReadInfo_without_body
           (gz := stored_gzip false) (sink := bytes_Buffer)
           (mkUnpacker true false) small_image).
  - reflexivity.
  - vm_compute. reflexivity.
Defined.

(** [X9] Extraction from end to end: when [ReadInfo] with [ParseBody]
    and without [Decompress] accepts a buffer, the body is not empty,
    and [Write] on the result is one call of the sink's [Write] whose
    argument is the range of the buffer that the header names; its
    error, if any, is the error of that call. *)
Theorem ReadInfo_then_Write_raw
        {gz : GzipLib} {W : Type} {sink : Writer W}
        (u : Unpacker) (buf : list byte) (info : BootInfo)
        (w : W) (calls : list (list byte)) :
  ParseBody u = true ->
  Decompress u = false ->
  ReadInfo_bytes u buf = Ok info ->
  Body info <> [] /\
  Write (sink := Recording W) info (w, calls) =
    let payload :=
      bytes_slice buf (Header_PayloadOffset (header_of buf))
        (Header_PayloadOffset (header_of buf) + Header_PayloadSize (header_of buf)) in
    let '(w', _, err) := io_Write w payload in
    ((w', calls ++ [payload]),
     match err with
     | Some msg => Err (sinkError msg)
     | None => Ok tt
     end).
Proof.
  intros HP HD HOk.
  destruct (ReadInfo_bytes_Ok u buf info HOk) as (Hfull & Hhdr & Hu & _ & Hbody).
  destruct (Hbody HP) as [Hb Hle]. clear Hbody. rewrite Hhdr in Hb, Hle.
  assert (body info <> []) as Hne.
  { rewrite (ReadInfo_decisions u buf Hfull) in HOk. cbv zeta in HOk.
    destruct (list_eq_dec _ (bytes_slice buf 0 2) _); [|discriminate HOk].
    destruct (list_eq_dec _ (bytes_slice buf 56 60) _); [|discriminate HOk].
    destruct (list_eq_dec _ (bytes_slice buf 4 8) _); [|discriminate HOk].
    destruct (_ || _) eqn:Hzero; [discriminate HOk|].
    apply orb_false_elim in Hzero as [_ Hsize]. apply Z.eqb_neq in Hsize.
    destruct (header_of_offsets_nonneg buf) as [Hoff Hsize0].
    intros Hnil.
    assert (len (body info) = Header_PayloadSize (header_of buf)) as Hlen
        by (rewrite Hb, len_bytes_slice; lia).
    rewrite Hnil in Hlen. change (len (@nil byte)) with 0 in Hlen. lia. }
  split; [exact Hne|]. cbv zeta. rewrite <- Hb.
  unfold Write. rewrite body_nonempty by assumption.
  rewrite Hu, HD. cbn [full_slice elems io_Write Recording fst snd].
  destruct (io_Write w (body info)) as [[w' n] err]. reflexivity.
Qed.

Lemma ReadInfo_then_Write_raw_witness :
  Body (small_info (mkUnpacker false true)) <> [] /\
  Write (gz := stored_gzip false) (sink := Recording (list byte))
        (small_info (mkUnpacker false true)) ([], [])
  = let payload :=
      bytes_slice small_image (Header_PayloadOffset (header_of small_image))
        (Header_PayloadOffset (header_of small_image)
         + Header_PayloadSize (header_of small_image)) in
    let '(w', _, err) := io_Write [] payload in
    ((w', [] ++ [payload]),
     match err with
     | Some msg => Err (sinkError msg)
     | None => Ok tt
     end).
Proof.
  apply (ReadInfo_then_Write_raw
           (gz := stored_gzip false) (sink := bytes_Buffer)
           (mkUnpacker false true) small_image
           (small_info (mkUnpacker false true)) [] []).
  - reflexivity.
  - reflexivity.
  - vm_compute. reflexivity.
Defined.

(** ** Write with decompression: the payload *)

Section WriteGzip.
Context {gz : GzipLib} {W : Type} {sink : Writer W}.

(** [Write] with [Decompress] on the gzip tag: the decompressor, then
    the sniff, then the sink. *)
Lemma Write_gzip_steps (info : BootInfo) (w : W) :
  body info <> [] ->
  Decompress (unpacker info) = true ->
  Header_CompressionType (header info) = Data Gzip ->
  Write info w =
    match decompressGunzip (body info) with
    | (_, Some e) => (w, Err e)
    | (d, None) =>
        match sniff d with
        | Err e => (w, Err e)
        | Panic m => (w, Panic m)
        | Ok sub =>
            let '(w', _, err) := io_Write w (elems sub) in
            (w', match err with
                 | Some msg => Err (sinkError msg)
                 | None => Ok tt
                 end)
        end
    end.
Proof.
  intros Hne Hdec Htag. unfold Write.
  rewrite body_nonempty by assumption. rewrite Hdec.
  unfold decompress_and_sniff. rewrite decompress_loop_gzip, Htag.
  destruct (string_dec _ _) as [_|N]; [|now contradiction N].
  cbn [full_slice elems].
  destruct (decompressGunzip (body info)) as [d [e|]]; reflexivity.
Qed.

End WriteGzip.

(** [X10] [Write] with [Decompress] on a body with the gzip tag that
    inflates to 60 bytes or more: when bytes 56 to 59 of the inflated
    payload are the bytes of [ARM] or of [RISC], [Write] is one call of
    the sink's [Write] with the whole inflated payload; otherwise it
    fails with "unknown payload type" showing those four bytes, and the
    sink is left as it was. *)
Theorem Write_inflated_payload
        {gz : GzipLib} {W : Type} {sink : Writer W}
        (info : BootInfo) (w : W) (r : gzip_Reader) (d : slice) :
  body info <> [] ->
  Decompress (unpacker info) = true ->
  Header_CompressionType (header info) = Data Gzip ->
  gzip_NewReader (body info) = inl r ->
  io_ReadAll r = (d, None) ->
  ARM64MagicOffset + 4 <= slice_len d ->
  (bytes_slice (elems d) 56 60 = Data ARM \/ bytes_slice (elems d) 56 60 = Data RISC ->
   Write info w =
     let '(w', _, err) := io_Write w (elems d) in
     (w', match err with
          | Some msg => Err (sinkError msg)
          | None => Ok tt
          end)) /\
  (bytes_slice (elems d) 56 60 <> Data ARM ->
   bytes_slice (elems d) 56 60 <> Data RISC ->
   Write info w =
     (w, Err (errorString ("unknown payload type: "
                           +++ Sprint_bytes (bytes_slice (elems d) 56 60))))).
Proof.
  intros Hne Hdec Htag Hnew Hall Hlen.
  rewrite Write_gzip_steps by assumption.
  unfold decompressGunzip. rewrite Hnew, Hall. cbn [option_map].
  unfold sniff.
  destruct (Z.ltb_spec (slice_len d) ARM64MagicOffset) as [Hlt|_];
    [unfold ARM64MagicOffset in *; lia|].
  destruct (sniff_read_in_bounds d Hlen) as (val & -> & Hval).
  rewrite sniff_loop_spec, Hval.
  change (bytes_slice (elems d) ARM64MagicOffset (ARM64MagicOffset + 4))
    with (bytes_slice (elems d) 56 60).
  destruct (list_eq_dec _ (bytes_slice (elems d) 56 60) (Data ARM)) as [EA|NA].
  - split; [reflexivity | contradiction].
  - destruct (list_eq_dec _ (bytes_slice (elems d) 56 60) (Data RISC)) as [ER|NR].
    + split; [reflexivity | contradiction].
    + split; [intros [?|?]; contradiction | reflexivity].
Qed.

Lemma Write_inflated_payload_witness :
  (bytes_slice (elems (mkSlice arm_payload (repeat x00 452))) 56 60 = Data ARM \/
   bytes_slice (elems (mkSlice arm_payload (repeat x00 452))) 56 60 = Data RISC ->
   Write (gz := stored_gzip false) (sink := bytes_Buffer) (stored_info arm_payload) []
   = let '(w', _, err) :=
       io_Write [] (elems (mkSlice arm_payload (repeat x00 452))) in
     (w', match err with
          | Some msg => Err (sinkError msg)
          | None => Ok tt
          end)) /\
  (bytes_slice (elems (mkSlice arm_payload (repeat x00 452))) 56 60 <> Data ARM ->
   bytes_slice (elems (mkSlice arm_payload (repeat x00 452))) 56 60 <> Data RISC ->
   Write (gz := stored_gzip false) (sink := bytes_Buffer) (stored_info arm_payload) []
   = ([], Err (errorString
                 ("unknown payload type: "
                  +++ Sprint_bytes
                        (bytes_slice (elems (mkSlice arm_payload (repeat x00 452)))
                                     56 60))))).
Proof.
  apply (Write_inflated_payload (gz := stored_gzip false) (sink := bytes_Buffer)
           (stored_info arm_payload) [] arm_payload
           (mkSlice arm_payload (repeat x00 452))).
  - discriminate.
  - reflexivity.
  - reflexivity.
  - reflexivity.
  - reflexivity.
  - vm_compute. discriminate.
Defined.

(** [X11] An error of the gzip library ends [Write] with that very
    error, whether it comes from [gzip.NewReader] or from [io.ReadAll]
    (whose partial result is dropped); the sink is left as it was. *)
Theorem Write_gzip_error_verbatim
        {gz : GzipLib} {W : Type} {sink : Writer W}
        (info : BootInfo) (w : W) :
  body info <> [] ->
  Decompress (unpacker info) = true ->
  Header_CompressionType (header info) = Data Gzip ->
  (forall msg,
      gzip_NewReader (body info) = inr msg ->
      Write info w = (w, Err (gzipError msg))) /\
  (forall r d msg,
      gzip_NewReader (body info) = inl r ->
      io_ReadAll r = (d, Some msg) ->
      Write info w = (w, Err (gzipError msg))).
Proof.
  intros Hne Hdec Htag. rewrite Write_gzip_steps by assumption.
  unfold decompressGunzip. split.
  - intros msg ->. reflexivity.
  - intros r d msg -> ->. reflexivity.
Qed.

Lemma Write_gzip_error_verbatim_witness :
  (forall msg,
      gzip_NewReader (GzipLib := failing_gzip) (body (stored_info [x1f; x8b])) = inr msg ->
      Write (gz := failing_gzip) (sink := bytes_Buffer) (stored_info [x1f; x8b]) [x01]
      = ([x01], Err (gzipError msg))) /\
  (forall r d msg,
      gzip_NewReader (GzipLib := failing_gzip) (body (stored_info [x1f; x8b])) = inl r ->
      io_ReadAll r = (d, Some msg) ->
      Write (gz := failing_gzip) (sink := bytes_Buffer) (stored_info [x1f; x8b]) [x01]
      = ([x01], Err (gzipError msg))).
Proof.
  apply (Write_gzip_error_verbatim (gz := failing_gzip) (sink := bytes_Buffer)
           (stored_info [x1f; x8b]) [x01]).
  - discriminate.
  - reflexivity.
  - reflexivity.
Defined.

(** [X12] [Write] with [Decompress] on a body with the gzip tag that
    inflates to fewer than 56 bytes fails with "invalid response
    payload" showing the inflated length; the sink is left as it
    was. *)
Theorem Write_inflated_too_short
        {gz : GzipLib} {W : Type} {sink : Writer W}
        (info : BootInfo) (w : W) (r : gzip_Reader) (d : slice) :
  body info <> [] ->
  Decompress (unpacker info) = true ->
  Header_CompressionType (header info) = Data Gzip ->
  gzip_NewReader (body info) = inl r ->
  io_ReadAll r = (d, None) ->
  slice_len d < ARM64MagicOffset ->
  Write info w = (w, Err (PayloadTooShort (slice_len d))).
Proof.
  intros Hne Hdec Htag Hnew Hall Hlen.
  rewrite Write_gzip_steps by assumption.
  unfold decompressGunzip. rewrite Hnew, Hall. cbn [option_map].
  apply sniff_too_short in Hlen. rewrite Hlen. reflexivity.
Qed.

Lemma Write_inflated_too_short_witness :
  Write (gz := stored_gzip false) (sink := bytes_Buffer)
        (stored_info (repeat x41 21)) [x01]
  = ([x01],
     Err (PayloadTooShort
            (slice_len (mkSlice (repeat x41 21) (repeat x00 491))))).
Proof.
  apply (Write_inflated_too_short (gz := stored_gzip false) (sink := bytes_Buffer)
           (stored_info (repeat x41 21)) [x01] (repeat x41 21)
           (mkSlice (repeat x41 21) (repeat x00 491))).
  - discriminate.
  - reflexivity.
  - reflexivity.
  - reflexivity.
  - reflexivity.
  - reflexivity.
Defined.

(** ** Write and the sink *)

(** [X13] Whatever the [BootInfo] and the options, [Write] calls the
    sink's [Write] at most once.  Either no call is made, the sink is
    left as it was and [Write] does not succeed; or exactly one call is
    made, the sink is left as that call leaves it, and [Write] succeeds
    exactly when that call does. *)
Theorem Write_calls_sink_at_most_once
        {gz : GzipLib} {W : Type} {sink : Writer W}
        (info : BootInfo) (w : W) (calls : list (list byte)) :
  (exists o,
      Write (sink := Recording W) info (w, calls) = ((w, calls), o) /\
      o <> Ok tt) \/
  (exists p w' n err,
      io_Write w p = (w', n, err) /\
      Write (sink := Recording W) info (w, calls) =
        ((w', calls ++ [p]),
         match err with
         | Some msg => Err (sinkError msg)
         | None => Ok tt
         end)).
Proof.
  unfold Write.
  destruct (len (body info) =? 0); [left; eexists; split; [reflexivity|discriminate]|].
  destruct (if Decompress (unpacker info)
            then decompress_and_sniff (header info) (full_slice (body info))
            else Ok (full_slice (body info))) as [sub|e|m].
  - right. cbn [io_Write Recording fst snd].
    destruct (io_Write w (elems sub)) as [[w' n] err] eqn:Hcall.
    exists (elems sub), w', n, err. split; [assumption | reflexivity].
  - left. eexists. split; [reflexivity|discriminate].
  - left. eexists. split; [reflexivity|discriminate].
Qed.

(** ** The loop over the architecture datums *)

(** [X14] The loop of the sniff over a list of datums never ends with an
    error: it answers whether the observed bytes are the bytes of one of
    the datums.  (Every error of [verify] is a content mismatch, so the
    [return err] of the loop is never reached.) *)
Theorem sniff_loop_finds_match (cs : list Datum) (val : list byte) :
  (sniff_loop cs val = Ok true \/ sniff_loop cs val = Ok false) /\
  (sniff_loop cs val = Ok true <-> exists c, In c cs /\ val = Data c).
Proof.
  induction cs as [|c cs [IHcases IHiff]].
  - cbn. split; [right; reflexivity|].
    split; [discriminate | intros (c & [] & _)].
  - cbn [sniff_loop]. rewrite verify_spec. cbn [left right].
    destruct (list_eq_dec Byte.byte_eq_dec val (Data c)) as [E|N].
    + split; [left; reflexivity|].
      split; [|reflexivity]. intros _. exists c. split; [now left | assumption].
    + fold (ContentMismatch c val). rewrite errors_Is_ContentMismatch. cbn [negb].
      split; [assumption|]. rewrite IHiff. split.
      * intros (c' & Hin & Hc'). exists c'. split; [now right | assumption].
      * intros (c' & [<-|Hin] & Hc'); [contradiction|]. now exists c'.
Qed.

(** ** The command line *)

Lemma Write_raw_steps {gz : GzipLib} {W : Type} {sink : Writer W}
      (info : BootInfo) (w : W) :
  body info <> [] ->
  Decompress (unpacker info) = false ->
  Write info w =
    let '(w', _, err) := io_Write w (body info) in
    (w', match err with
         | Some msg => Err (sinkError msg)
         | None => Ok tt
         end).
Proof.
  intros Hne Hraw. unfold Write.
  rewrite body_nonempty by assumption. rewrite Hraw. reflexivity.
Qed.

(** A body read with [ParseBody] is the named range of the buffer, and
    it is not empty. *)
Lemma ReadInfo_body (u : Unpacker) (buf : list byte) (info : BootInfo) :
  ParseBody u = true ->
  ReadInfo_bytes u buf = Ok info ->
  unpacker info = u /\
  body info = bytes_slice buf (Header_PayloadOffset (header_of buf))
                (Header_PayloadOffset (header_of buf)
                 + Header_PayloadSize (header_of buf)) /\
  body info <> [].
Proof.
  intros HP HOk.
  destruct (ReadInfo_bytes_Ok u buf info HOk) as (Hfull & Hhdr & Hu & _ & Hbody).
  destruct (Hbody HP) as [Hb Hle]. clear Hbody. rewrite Hhdr in Hb, Hle.
  split; [assumption|]. split; [assumption|].
  rewrite (ReadInfo_decisions u buf Hfull) in HOk. cbv zeta in HOk.
  destruct (list_eq_dec _ (bytes_slice buf 0 2) _); [|discriminate HOk].
  destruct (list_eq_dec _ (bytes_slice buf 56 60) _); [|discriminate HOk].
  destruct (list_eq_dec _ (bytes_slice buf 4 8) _); [|discriminate HOk].
  destruct (_ || _) eqn:Hzero; [discriminate HOk|].
  apply orb_false_elim in Hzero as [_ Hsize]. apply Z.eqb_neq in Hsize.
  destruct (header_of_offsets_nonneg buf) as [Hoff Hsize0].
  intros Hnil.
  assert (len (body info) = Header_PayloadSize (header_of buf)) as Hlen
      by (rewrite Hb, len_bytes_slice; lia).
  rewrite Hnil in Hlen. change (len (@nil byte)) with 0 in Hlen. lia.
Qed.

(** [X15] The command [unpack], once the flags name an input and an
    output and the input file is read.  When [ReadInfo] refuses the
    bytes of the input, [unpack] returns its error and the output file
    is not opened (so that an existing file is not truncated).  When
    [ReadInfo] accepts them, without [-decompress], and the output file
    opens, [unpack] writes to it, in one call, the range of the input
    that the header names, closes it, and returns the error of that
    write, if any. *)
Theorem unpack_extracts_payload
        {St : Type} {os : OS St} {gz : GzipLib}
        (fl : Flags) (st st1 : St) (buf : list byte) :
  flag_in fl <> "" ->
  flag_out fl <> "" ->
  os_ReadFile st (flag_in fl) = (st1, inl buf) ->
  (forall e,
      ReadInfo_bytes (mkUnpacker (flag_decompress fl) true) buf = Err e ->
      unpack fl st = (st1, unpack_returned (Err e))) /\
  (forall info st2 f,
      flag_decompress fl = false ->
      ReadInfo_bytes (mkUnpacker (flag_decompress fl) true) buf = Ok info ->
      os_OpenFile st1 (flag_out fl) = (st2, inl f) ->
      unpack fl st =
        let payload :=
          bytes_slice buf (Header_PayloadOffset (header_of buf))
            (Header_PayloadOffset (header_of buf)
             + Header_PayloadSize (header_of buf)) in
        let '(st3, _, err) := File_Write f st2 payload in
        (File_Close f st3,
         unpack_returned match err with
                         | Some msg => Err (sinkError msg)
                         | None => Ok tt
                         end)).
Proof.
  intros Hin Hout Hread.
  apply String.eqb_neq in Hin, Hout.
  unfold unpack. cbv zeta. rewrite Hin, Hout, Hread. cbn [orb].
  fold (ReadInfo_bytes (mkUnpacker (flag_decompress fl) true) buf).
  split.
  - intros e ->. reflexivity.
  - intros info st2 f Hraw HOk Hopen. rewrite HOk, Hopen.
    destruct (ReadInfo_body (mkUnpacker (flag_decompress fl) true) buf info
                eq_refl HOk) as (Hu & Hbody & Hne).
    rewrite Write_raw_steps; [| assumption | now rewrite Hu].
    rewrite Hbody. cbn [io_Write File_Writer].
    destruct (File_Write f st2 _) as [[st3 n] err]. reflexivity.
Qed.

Lemma unpack_extracts_payload_witness :
  (forall e,
      ReadInfo_bytes (mkUnpacker false true) small_image = Err e ->
      unpack (os := mem_OS) (gz := stored_gzip false) (mkFlags "in" "out" false)
             [("in", small_image); ("out", [x01; x02; x03])]
      = ([("in", small_image); ("out", [x01; x02; x03])], unpack_returned (Err e))) /\
  (forall info st2 f,
      false = false ->
      ReadInfo_bytes (mkUnpacker false true) small_image = Ok info ->
      os_OpenFile (OS := mem_OS) [("in", small_image); ("out", [x01; x02; x03])] "out"
        = (st2, inl f) ->
      unpack (os := mem_OS) (gz := stored_gzip false) (mkFlags "in" "out" false)
             [("in", small_image); ("out", [x01; x02; x03])]
      = let payload :=
          bytes_slice small_image (Header_PayloadOffset (header_of small_image))
            (Header_PayloadOffset (header_of small_image)
             + Header_PayloadSize (header_of small_image)) in
        let '(st3, _, err) := File_Write (OS := mem_OS) f st2 payload in
        (File_Close f st3,
         unpack_returned match err with
                         | Some msg => Err (sinkError msg)
                         | None => Ok tt
                         end)).
Proof.
  apply (unpack_extracts_payload (os := mem_OS) (gz := stored_gzip false)
           (mkFlags "in" "out" false)
           [("in", small_image); ("out", [x01; x02; x03])]
           [("in", small_image); ("out", [x01; x02; x03])] small_image).
  - discriminate.
  - discriminate.
  - reflexivity.
Defined.

(** [unpack] on the file system of the examples: the output file, which
    held three bytes, holds the two bytes of the payload afterwards. *)
Example unpack_small_image :
  unpack (os := mem_OS) (gz := stored_gzip false) (mkFlags "in" "out" false)
         [("in", small_image); ("out", [x01; x02; x03])]
  = ([("in", small_image); ("out", [x0a; x0b])], unpack_returned (Ok tt)).
Proof. vm_compute. reflexivity. Qed.

(** ** The two errors of the bounds *)

(** [X16] On a buffer that holds a header, [ReadInfo] fails with
    "payload size/offset is zero" exactly when the three magic fields
    are right and the offset or the size is zero, and with "invalid
    offset/payload, beyond size" exactly when the magic fields are
    right, neither is zero, and their sum, taken on [uint32], exceeds
    the number of bytes of the buffer after the header. *)
Theorem bounds_errors_iff (u : Unpacker) (buf : list byte) :
  Header_size <= len buf ->
  (ReadInfo_bytes u buf = Err InvalidPayloadBounds_zero <->
   bytes_slice buf 0 2 = Data MSDOSMagic /\
   bytes_slice buf 56 60 = Data LinuxMagic /\
   bytes_slice buf 4 8 = Data ZImg /\
   (Header_PayloadOffset (header_of buf) = 0 \/
    Header_PayloadSize (header_of buf) = 0)) /\
  (ReadInfo_bytes u buf = Err InvalidPayloadBounds_beyond <->
   bytes_slice buf 0 2 = Data MSDOSMagic /\
   bytes_slice buf 56 60 = Data LinuxMagic /\
   bytes_slice buf 4 8 = Data ZImg /\
   Header_PayloadOffset (header_of buf) <> 0 /\
   Header_PayloadSize (header_of buf) <> 0 /\
   (Header_PayloadOffset (header_of buf) + Header_PayloadSize (header_of buf))
     mod 2 ^ 32 > len buf - Header_size).
Proof.
  intros Hfull. rewrite (ReadInfo_decisions u buf Hfull). cbv zeta.
  unfold ContentMismatch, InvalidPayloadBounds_zero, InvalidPayloadBounds_beyond.
  destruct (list_eq_dec _ (bytes_slice buf 0 2) _) as [Edos|Ndos];
    [|split; (split; [discriminate | tauto])].
  destruct (list_eq_dec _ (bytes_slice buf 56 60) _) as [Elinux|Nlinux];
    [|split; (split; [discriminate | tauto])].
  destruct (list_eq_dec _ (bytes_slice buf 4 8) _) as [Ezimg|Nzimg];
    [|split; (split; [discriminate | tauto])].
  destruct (Z.eqb_spec (Header_PayloadOffset (header_of buf)) 0) as [Eoff|Noff];
    [split; (split; [try discriminate; tauto | tauto])|].
  destruct (Z.eqb_spec (Header_PayloadSize (header_of buf)) 0) as [Esize|Nsize];
    [split; (split; [try discriminate; tauto | tauto])|].
  cbn [orb].
  destruct (Z.gtb_spec
              ((Header_PayloadOffset (header_of buf)
                + Header_PayloadSize (header_of buf)) mod 2 ^ 32)
              (len buf - Header_size)) as [Hgt|Hle].
  - split; (split; [try discriminate; intros _; repeat split; assumption || lia
                   | try reflexivity; intros (_ & _ & _ & [|]); contradiction]).
  - assert (forall o : outcome BootInfo,
               (o = Ok (mkBootInfo (header_of buf) [] u) \/
                (exists b, o = Ok (mkBootInfo (header_of buf) b u)) \/ o = Err io_EOF) ->
               (o = Err (errorString "payload size/offset is zero") <->
                bytes_slice buf 0 2 = Data MSDOSMagic /\
                bytes_slice buf 56 60 = Data LinuxMagic /\
                bytes_slice buf 4 8 = Data ZImg /\
                (Header_PayloadOffset (header_of buf) = 0 \/
                 Header_PayloadSize (header_of buf) = 0)) /\
               (o = Err (errorString "invalid offset/payload, beyond size") <->
                bytes_slice buf 0 2 = Data MSDOSMagic /\
                bytes_slice buf 56 60 = Data LinuxMagic /\
                bytes_slice buf 4 8 = Data ZImg /\
                Header_PayloadOffset (header_of buf) <> 0 /\
                Header_PayloadSize (header_of buf) <> 0 /\
                (Header_PayloadOffset (header_of buf)
                 + Header_PayloadSize (header_of buf)) mod 2 ^ 32
                > len buf - Header_size)) as Hother.
    { intros o [-> | [[b ->] | ->]];
        (split; (split; [discriminate|]));
        try (intros (_ & _ & _ & [|]); contradiction);
        intros (_ & _ & _ & _ & _ & ?); lia. }
    destruct (ParseBody u); [|apply Hother; now left].
    destruct (_ <=? _); apply Hother; [right; left; eauto | now right; right].
Qed.

Lemma bounds_errors_iff_witness :
  (ReadInfo_bytes (mkUnpacker false true) snug_image = Err InvalidPayloadBounds_zero <->
   bytes_slice snug_image 0 2 = Data MSDOSMagic /\
   bytes_slice snug_image 56 60 = Data LinuxMagic /\
   bytes_slice snug_image 4 8 = Data ZImg /\
   (Header_PayloadOffset (header_of snug_image) = 0 \/
    Header_PayloadSize (header_of snug_image) = 0)) /\
  (ReadInfo_bytes (mkUnpacker false true) snug_image = Err InvalidPayloadBounds_beyond <->
   bytes_slice snug_image 0 2 = Data MSDOSMagic /\
   bytes_slice snug_image 56 60 = Data LinuxMagic /\
   bytes_slice snug_image 4 8 = Data ZImg /\
   Header_PayloadOffset (header_of snug_image) <> 0 /\
   Header_PayloadSize (header_of snug_image) <> 0 /\
   (Header_PayloadOffset (header_of snug_image)
    + Header_PayloadSize (header_of snug_image)) mod 2 ^ 32
   > len snug_image - Header_size).
Proof.
  apply (bounds_errors_iff (mkUnpacker false true) snug_image).
  vm_compute. discriminate.
Defined.

(** ** When Write panics *)


